(** * AI-OS core service (ai-os_core.py): a shallow embedding and its properties

    The service keeps free-text "memory" rows in one SQLite table, appends
    JSON lines to a log file, guards every route with one API key and runs a
    heartbeat loop.  The development follows the layout of the source file:

    - [Py]      : the pieces of Python's [str] and text-file API the code calls
                  ([strip], [upper], [readlines], slicing);
    - [Json]    : [json.dumps] on a dict of strings, and a reader for the
                  same fragment of RFC 8259;
    - [Sqlite]  : the [memory] table, [INTEGER PRIMARY KEY AUTOINCREMENT],
                  and the [LIKE] operator;
    - section [Service] : [log_event], [add_memory_entry], the four routes,
                  [authenticate], Flask's dispatch, and the
                  [background_maintenance] loop as a transition system;
    - [Demo]    : runs on concrete requests.

    Modelling scope.  A Python [str] is a list of code points.  Requests are
    handled one at a time ([memory_lock] serialises the store operations), the
    per-request connection kept in [flask.g] holds no data of its own, and the
    file system does not fail.  The two SQL statements fail as the engine
    and the [sqlite3] module make them fail: a parameter that has no UTF-8
    encoding or is too long, a used-up rowid, a record or a LIKE pattern
    that is too long; and LIKE reads its operands as the engine does, up to
    the first NUL.  A request is given by its route, its X-API-KEY header
    and its JSON body, null or an object with string values; matching URLs
    to routes is Flask's and is not modelled.  The clock and the Unicode
    case table are parameters of section [Service]. *)

From Stdlib Require Import ZArith NArith String Ascii Lia Bool Sorted.
From stdpp Require Import base list gmap.

Local Open Scope N_scope.

(* ================================================================== *)
(** * Python strings *)
(* ================================================================== *)

Module Py.

(** A [str] is a sequence of code points ([ord] of each character). *)
Abbreviation str := (list N) (only parsing).

(** String literals of the source, written as Rocq strings. *)
Definition lit (s : string) : str := map N_of_ascii (list_ascii_of_string s).

(** [str.isspace] on one character: the code points Python treats as
    whitespace ([Py_UNICODE_ISSPACE]). *)
Definition isspace (c : N) : bool :=
  ((9 <=? c) && (c <=? 13)) || ((28 <=? c) && (c <=? 32))
  || (c =? 133) || (c =? 160) || (c =? 5760)
  || ((8192 <=? c) && (c <=? 8202))
  || (c =? 8232) || (c =? 8233) || (c =? 8239) || (c =? 8287) || (c =? 12288).

Fixpoint lstrip (s : str) : str :=
  match s with
  | [] => []
  | c :: s' => if isspace c then lstrip s' else s
  end.

Definition rstrip (s : str) : str := rev (lstrip (rev s)).

(** [s.strip()] with no argument. *)
Definition strip (s : str) : str := rstrip (lstrip s).

(** Truthiness of a [str]: the empty string is false. *)
Definition truthy (s : str) : bool :=
  match s with [] => false | _ :: _ => true end.

(** [c.upper()] for an ASCII character; other characters go through the
    Unicode table, a parameter of [upper]. *)
Definition ascii_upper (c : N) : N :=
  if (97 <=? c) && (c <=? 122) then c - 32 else c.

Definition upper (unicode_upper : N -> str) (s : str) : str :=
  flat_map (fun c => if c <? 128 then [ascii_upper c] else unicode_upper c) s.

(** Reading a text file opened with [newline=None]: the line endings
    CR LF and CR are read as LF.  [pendingcr] tells that the character just
    read was a CR, as in [io.IncrementalNewlineDecoder]. *)
Fixpoint translate_newlines (pendingcr : bool) (s : str) : str :=
  match s with
  | [] => []
  | c :: s' =>
      if c =? 13 then 10 :: translate_newlines true s'
      else if (c =? 10) && pendingcr then translate_newlines false s'
      else c :: translate_newlines false s'
  end.

Definition universal_newlines (s : str) : str := translate_newlines false s.

(** Splitting after every LF; each line keeps its terminator, and a last
    line without one is kept as it is.  [cur] is the line being read, in
    reverse. *)
Fixpoint split_lines (cur : str) (s : str) : list str :=
  match s with
  | [] => match cur with [] => [] | _ => [rev cur] end
  | c :: s' =>
      if c =? 10 then rev (c :: cur) :: split_lines [] s'
      else split_lines (c :: cur) s'
  end.

(** [f.readlines()] on the text of a file. *)
Definition readlines (text : str) : list str :=
  split_lines [] (universal_newlines text).

(** The slice [l[-n:]] for [n > 0]: the last [n] elements, all of [l] when it
    is shorter. *)
Definition last_n {A} (n : nat) (l : list A) : list A :=
  drop (length l - n)%nat l.

(** [k in s] on strings: [k] occurs in [s] as a contiguous substring. *)
Definition substring (k s : str) : Prop :=
  exists pre post, s = pre ++ k ++ post.

(** ** Facts *)

Lemma lstrip_nil_iff (s : str) : lstrip s = [] <-> forallb isspace s = true.
Proof.
  induction s as [|c s IH]; simpl; [tauto|].
  destruct (isspace c) eqn:E; simpl; [exact IH|].
  split; intros H; discriminate H.
Qed.

Lemma lstrip_all_space (s : str) : forallb isspace s = true -> lstrip s = [].
Proof. apply lstrip_nil_iff. Qed.

Lemma lstrip_suffix (s : str) : exists pre, s = pre ++ lstrip s /\ forallb isspace pre = true.
Proof.
  induction s as [|c s [pre [E H]]]; simpl.
  - exists []. split; reflexivity.
  - destruct (isspace c) eqn:Ec.
    + exists (c :: pre). simpl. rewrite Ec, H. split; [congruence | reflexivity].
    + exists []. split; reflexivity.
Qed.

Lemma forallb_rev_eq {A} (f : A -> bool) (l : list A) :
  forallb f (rev l) = forallb f l.
Proof.
  induction l as [|a l IH]; simpl; [reflexivity|].
  rewrite forallb_app, IH. simpl. rewrite andb_true_r. apply andb_comm.
Qed.

(** [not s.strip()] holds exactly for the strings made of whitespace only
    (the empty string among them). *)
Lemma strip_nil_iff (s : str) : strip s = [] <-> forallb isspace s = true.
Proof.
  unfold strip, rstrip. split.
  - intros H.
    assert (Hr : lstrip (rev (lstrip s)) = []).
    { apply (f_equal (@rev N)) in H. rewrite rev_involutive in H. exact H. }
    apply lstrip_nil_iff in Hr. rewrite forallb_rev_eq in Hr.
    destruct (lstrip_suffix s) as [pre [E Hp]].
    rewrite E, forallb_app, Hp, Hr. reflexivity.
  - intros H. rewrite (lstrip_all_space s H). reflexivity.
Qed.

Lemma truthy_false_iff (s : str) : truthy s = false <-> s = [].
Proof. destruct s; simpl; split; intros H; congruence. Qed.

Lemma last_n_length {A} (n : nat) (l : list A) :
  length (last_n n l) = Nat.min n (length l).
Proof. unfold last_n. rewrite length_drop. lia. Qed.

Lemma last_n_suffix {A} (n : nat) (l : list A) :
  exists older, l = older ++ last_n n l.
Proof. exists (take (length l - n)%nat l). unfold last_n. symmetry. apply take_drop. Qed.

Lemma last_n_short {A} (n : nat) (l : list A) :
  (length l <= n)%nat -> last_n n l = l.
Proof. intros H. unfold last_n. replace (length l - n)%nat with 0%nat by lia. reflexivity. Qed.

(** A character that is no line ending. *)
Definition no_newline (c : N) : Prop := c <> 10 /\ c <> 13.

Lemma translate_app_lf (t0 b : str) :
  forall f, translate_newlines f ((t0 ++ [10]) ++ b)
            = translate_newlines f (t0 ++ [10]) ++ translate_newlines false b.
Proof.
  induction t0 as [|c t0 IH]; intros f.
  - destruct f; reflexivity.
  - cbn [app translate_newlines].
    destruct (c =? 13); [rewrite IH; reflexivity|].
    destruct ((c =? 10) && f); rewrite IH; reflexivity.
Qed.

Lemma translate_ends_lf (t0 : str) :
  (exists u, translate_newlines false (t0 ++ [10]) = u ++ [10]) /\
  (translate_newlines true (t0 ++ [10]) = [] \/
   exists u, translate_newlines true (t0 ++ [10]) = u ++ [10]).
Proof.
  induction t0 as [|c t0 [[u Hu] IHt]].
  - split; [exists []; reflexivity | left; reflexivity].
  - cbn [app translate_newlines]. rewrite andb_false_r, andb_true_r.
    destruct (c =? 13).
    + assert (H : exists u', 10 :: translate_newlines true (t0 ++ [10]) = u' ++ [10]).
      { destruct IHt as [E|[u' E]]; rewrite E; [exists [] | exists (10 :: u')]; reflexivity. }
      split; [exact H | right; exact H].
    + rewrite Hu. split; [exists (c :: u); reflexivity|].
      right. destruct (c =? 10); [exists u | exists (c :: u)]; reflexivity.
Qed.

Lemma translate_plain_line (line : str) :
  Forall no_newline line ->
  translate_newlines false (line ++ [10]) = line ++ [10].
Proof.
  induction 1 as [|c line [H10 H13] _ IH]; [reflexivity|].
  cbn [app translate_newlines].
  destruct (N.eqb_spec c 13); [contradiction|].
  rewrite andb_false_r, IH. reflexivity.
Qed.

Lemma split_lines_line (line : str) :
  Forall no_newline line ->
  forall cur, split_lines cur (line ++ [10]) = [rev cur ++ line ++ [10]].
Proof.
  induction 1 as [|c line [H10 H13] _ IH]; intros cur.
  - reflexivity.
  - cbn [app split_lines]. destruct (N.eqb_spec c 10); [contradiction|].
    rewrite IH. cbn [rev]. rewrite <- app_assoc. reflexivity.
Qed.

Lemma split_lines_app_lf (t0 b : str) :
  forall cur, split_lines cur ((t0 ++ [10]) ++ b)
              = split_lines cur (t0 ++ [10]) ++ split_lines [] b.
Proof.
  induction t0 as [|c t0 IH]; intros cur.
  - reflexivity.
  - cbn [app split_lines]. destruct (c =? 10); rewrite IH; reflexivity.
Qed.

(** A text is made of whole lines when it is empty or ends with LF. *)
Definition whole_lines (text : str) : Prop :=
  text = [] \/ exists t0, text = t0 ++ [10].

(** Appending one LF-terminated line to a text of whole lines adds
    exactly that line to what [readlines] returns. *)
Lemma readlines_append_line (text line : str) :
  whole_lines text -> Forall no_newline line ->
  readlines (text ++ line ++ [10]) = readlines text ++ [line ++ [10]].
Proof.
  intros Hw Hl. unfold readlines, universal_newlines.
  destruct Hw as [->|[t0 ->]].
  - cbn [app]. rewrite (translate_plain_line line Hl).
    apply (split_lines_line line Hl []).
  - rewrite translate_app_lf, (translate_plain_line line Hl).
    destruct (translate_ends_lf t0) as [[u ->] _].
    rewrite split_lines_app_lf. f_equal.
    apply (split_lines_line line Hl []).
Qed.

Lemma substring_chars (k s : str) : substring k s -> Forall (fun c => In c s) k.
Proof.
  intros [pre [post ->]]. apply Forall_forall. intros c Hc.
  apply in_or_app. right. apply in_or_app. left. apply list_elem_of_In, Hc.
Qed.

Lemma substring_refl (s : str) : substring s s.
Proof. exists [], []. simpl. rewrite app_nil_r. reflexivity. Qed.

(** ** Texts made of whole lines *)

Lemma whole_lines_append (text line : str) : whole_lines (text ++ line ++ [10]).
Proof. right. exists (text ++ line). rewrite <- app_assoc. reflexivity. Qed.

(** A text written line by line, each line without a line ending of its
    own and closed by LF, is read back as those lines. *)
Lemma readlines_lines (ls : list str) :
  Forall (Forall no_newline) ls ->
  whole_lines (concat (map (fun l => l ++ [10]) ls))
  /\ readlines (concat (map (fun l => l ++ [10]) ls)) = map (fun l => l ++ [10]) ls.
Proof.
  induction ls as [|l ls IH] using rev_ind; intros H.
  - split; [left; reflexivity | reflexivity].
  - apply Forall_app in H as [Hls Hl]. apply Forall_cons_1 in Hl as [Hl _].
    destruct (IH Hls) as [Hw Hr].
    rewrite map_app, concat_app. cbn [map concat]. rewrite app_nil_r.
    split; [apply whole_lines_append|].
    rewrite (readlines_append_line _ l Hw Hl), Hr. reflexivity.
Qed.

End Py.

(* ================================================================== *)
(** * JSON: [json.dumps] of a dict of strings, and a reader *)
(* ================================================================== *)

Module Json.
Import Py.

(** ** Writing: [json.dumps(d)] with the default [ensure_ascii=True] and
    separators [", "] and [": "]. *)

(** One digit of ['{0:04x}'.format(n)]. *)
Definition hex_digit (d : N) : N := if d <? 10 then 48 + d else 87 + d.

(** ['{0:04x}'.format(n)]; the encoder calls it with [n < 0x10000] only,
    where the result has exactly these four digits. *)
Definition hex4 (n : N) : str :=
  [hex_digit (n / 4096 mod 16); hex_digit (n / 256 mod 16);
   hex_digit (n / 16 mod 16); hex_digit (n mod 16)].

Definition u_escape (n : N) : str := 92 :: 117 :: hex4 n.

(** The replacement of one character by [encode_basestring_ascii]: the
    short escapes of [ESCAPE_DCT], printable ASCII as it is, [\uXXXX]
    otherwise, as a surrogate pair beyond the basic plane. *)
Definition escape_char (c : N) : str :=
  if c =? 34 then [92; 34]
  else if c =? 92 then [92; 92]
  else if c =? 10 then [92; 110]
  else if c =? 13 then [92; 114]
  else if c =? 9 then [92; 116]
  else if c =? 12 then [92; 102]
  else if c =? 8 then [92; 98]
  else if (32 <=? c) && (c <=? 126) then [c]
  else if c <? 65536 then u_escape c
  else
    let n := c - 65536 in
    u_escape (N.lor 55296 (N.land (N.shiftr n 10) 1023))
      ++ u_escape (N.lor 56320 (N.land n 1023)).

Definition encode_basestring_ascii (s : str) : str :=
  34 :: flat_map escape_char s ++ [34].

Definition dumps_item (kv : str * str) : str :=
  encode_basestring_ascii (fst kv) ++ lit ": " ++ encode_basestring_ascii (snd kv).

Fixpoint dumps_items (items : list (str * str)) : str :=
  match items with
  | [] => []
  | kv :: rest =>
      match rest with
      | [] => dumps_item kv
      | _ :: _ => dumps_item kv ++ lit ", " ++ dumps_items rest
      end
  end.

(** A dict is the list of its items in insertion order. *)
Definition dumps (d : list (str * str)) : str := 123 :: dumps_items d ++ [125].

(** ** Reading: the grammar of RFC 8259 restricted to objects whose values
    are strings.  A string denotes its sequence of UTF-16 code units. *)

Definition utf16_units (c : N) : list N :=
  if c <? 65536 then [c]
  else
    let n := c - 65536 in
    [N.lor 55296 (N.land (N.shiftr n 10) 1023); N.lor 56320 (N.land n 1023)].

Definition utf16 (s : str) : list N := flat_map utf16_units s.

Definition is_ws (c : N) : bool := (c =? 32) || (c =? 9) || (c =? 10) || (c =? 13).

Fixpoint skip_ws (s : str) : str :=
  match s with
  | [] => []
  | c :: s' => if is_ws c then skip_ws s' else s
  end.

Definition unhex (c : N) : option N :=
  if (48 <=? c) && (c <=? 57) then Some (c - 48)
  else if (97 <=? c) && (c <=? 102) then Some (c - 87)
  else if (65 <=? c) && (c <=? 70) then Some (c - 55)
  else None.

Definition unhex4 (a b c d : N) : option N :=
  match unhex a, unhex b, unhex c, unhex d with
  | Some x, Some y, Some z, Some w => Some (((x * 16 + y) * 16 + z) * 16 + w)
  | _, _, _, _ => None
  end.

Definition simple_escape (e : N) : option N :=
  if e =? 34 then Some 34
  else if e =? 92 then Some 92
  else if e =? 47 then Some 47
  else if e =? 98 then Some 8
  else if e =? 102 then Some 12
  else if e =? 110 then Some 10
  else if e =? 114 then Some 13
  else if e =? 116 then Some 9
  else None.

Definition push (units : list N) (r : option (list N * str)) : option (list N * str) :=
  match r with
  | Some (l, rest) => Some (units ++ l, rest)
  | None => None
  end.

(** The characters of a string up to its closing quote; the text after the
    quote is returned with them. *)
Fixpoint read_chars (s : str) : option (list N * str) :=
  match s with
  | [] => None
  | c :: s1 =>
      if c =? 34 then Some ([], s1)
      else if c =? 92 then
        match s1 with
        | [] => None
        | e :: s2 =>
            if e =? 117 then
              match s2 with
              | h1 :: h2 :: h3 :: h4 :: s3 =>
                  match unhex4 h1 h2 h3 h4 with
                  | Some u => push [u] (read_chars s3)
                  | None => None
                  end
              | _ => None
              end
            else
              match simple_escape e with
              | Some x => push [x] (read_chars s2)
              | None => None
              end
        end
      else if (c <? 32) || (1114111 <? c) then None
      else push (utf16_units c) (read_chars s1)
  end.

Definition read_string (s : str) : option (list N * str) :=
  match s with
  | c :: s' => if c =? 34 then read_chars s' else None
  | [] => None
  end.

(** The members of an object from its first member on, up to and with the
    closing brace. *)
Fixpoint read_members (fuel : nat) (s : str) : option (list (list N * list N) * str) :=
  match fuel with
  | O => None
  | S fuel' =>
      match read_string s with
      | None => None
      | Some (k, s1) =>
          match skip_ws s1 with
          | c :: s2 =>
              if c =? 58 then
                match read_string (skip_ws s2) with
                | None => None
                | Some (v, s3) =>
                    match skip_ws s3 with
                    | d :: s4 =>
                        if d =? 125 then Some ([(k, v)], s4)
                        else if d =? 44 then
                          match read_members fuel' (skip_ws s4) with
                          | Some (m, r) => Some ((k, v) :: m, r)
                          | None => None
                          end
                        else None
                    | [] => None
                    end
                end
              else None
          | [] => None
          end
      end
  end.

Definition read_object (s : str) : option (list (list N * list N) * str) :=
  match skip_ws s with
  | c :: s1 =>
      if c =? 123 then
        match skip_ws s1 with
        | d :: s2 => if d =? 125 then Some ([], s2)
                     else read_members (length s) (skip_ws s1)
        | [] => None
        end
      else None
  | [] => None
  end.

(** [loads] accepts a text that is one object and nothing else. *)
Definition loads (s : str) : option (list (list N * list N)) :=
  match read_object s with
  | Some (m, rest) => match skip_ws rest with [] => Some m | _ :: _ => None end
  | None => None
  end.

(** The characters [json.dumps] emits: printable ASCII. *)
Definition printable (c : N) : Prop := 32 <= c <= 126.

(** ** Facts: what [dumps] writes, [loads] reads back *)

Ltac cases_N :=
  repeat match goal with
  | |- context [N.eqb ?a ?b] => destruct (N.eqb_spec a b)
  | |- context [N.ltb ?a ?b] => destruct (N.ltb_spec a b)
  | |- context [N.leb ?a ?b] => destruct (N.leb_spec a b)
  end; simpl.

Lemma unhex_hex_digit (d : N) : d < 16 -> unhex (hex_digit d) = Some d.
Proof.
  intros H. unfold unhex, hex_digit.
  cases_N; try lia; f_equal; lia.
Qed.

Lemma hex_digit_printable (d : N) : d < 16 -> printable (hex_digit d).
Proof. intros H. unfold printable, hex_digit. cases_N; lia. Qed.

Lemma mod16_lt (n : N) : n mod 16 < 16.
Proof. apply N.mod_lt. discriminate. Qed.

Lemma hex4_value (n : N) :
  n < 65536 ->
  ((n / 4096 mod 16 * 16 + n / 256 mod 16) * 16 + n / 16 mod 16) * 16 + n mod 16 = n.
Proof.
  intros H.
  pose proof (N.div_mod n 16 ltac:(discriminate)).
  pose proof (N.div_mod (n / 16) 16 ltac:(discriminate)).
  pose proof (N.div_mod (n / 16 / 16) 16 ltac:(discriminate)).
  replace (n / 4096) with (n / 16 / 16 / 16)
    by (rewrite !N.Div0.div_div; reflexivity).
  replace (n / 256) with (n / 16 / 16)
    by (rewrite !N.Div0.div_div; reflexivity).
  assert (n / 16 / 16 / 16 < 16).
  { apply N.Div0.div_lt_upper_bound. apply N.Div0.div_lt_upper_bound.
    apply N.Div0.div_lt_upper_bound. lia. }
  rewrite (N.mod_small (n / 16 / 16 / 16) 16) by assumption.
  pose proof (mod16_lt n). pose proof (mod16_lt (n / 16)). pose proof (mod16_lt (n / 16 / 16)).
  lia.
Qed.

Lemma read_u_escape (n : N) (tail : str) :
  n < 65536 ->
  read_chars (u_escape n ++ tail) = push [n] (read_chars tail).
Proof.
  intros H. unfold u_escape, hex4. simpl. unfold unhex4.
  rewrite !unhex_hex_digit by apply mod16_lt.
  rewrite hex4_value by assumption. reflexivity.
Qed.

Lemma surrogate_lt (base x : N) :
  base < 65536 -> N.lor base (N.land x 1023) < 65536.
Proof.
  intros Hb.
  destruct (N.eq_dec (N.lor base (N.land x 1023)) 0) as [E|E]; [rewrite E; lia|].
  change 65536 with (2 ^ 16). apply N.log2_lt_pow2; [lia|].
  rewrite N.log2_lor.
  assert (Hx : N.log2 (N.land x 1023) <= 9).
  { change 9 with (N.log2 1023). apply N.log2_le_mono.
    change 1023 with (N.ones 10). rewrite N.land_ones.
    pose proof (N.mod_lt x (2 ^ 10) ltac:(discriminate)).
    change (N.ones 10) with 1023. change (2 ^ 10) with 1024 in *. lia. }
  assert (Hl : N.log2 base < 16).
  { destruct (N.eq_dec base 0) as [->|Hz]; [simpl; lia|].
    apply N.log2_lt_pow2; [lia|exact Hb]. }
  lia.
Qed.

(** Reading back the escape of one character gives its code units. *)
Lemma read_escape_char (c : N) (tail : str) :
  read_chars (escape_char c ++ tail) = push (utf16_units c) (read_chars tail).
Proof.
  unfold escape_char.
  destruct (N.eqb_spec c 34) as [->|H34]; [reflexivity|].
  destruct (N.eqb_spec c 92) as [->|H92]; [reflexivity|].
  destruct (N.eqb_spec c 10) as [->|H10]; [reflexivity|].
  destruct (N.eqb_spec c 13) as [->|H13]; [reflexivity|].
  destruct (N.eqb_spec c 9) as [->|H9]; [reflexivity|].
  destruct (N.eqb_spec c 12) as [->|H12]; [reflexivity|].
  destruct (N.eqb_spec c 8) as [->|H8]; [reflexivity|].
  assert (Hu : c < 65536 -> utf16_units c = [c]).
  { intros Hb. unfold utf16_units. destruct (N.ltb_spec c 65536); [reflexivity|lia]. }
  destruct (N.leb_spec 32 c) as [Hlo|Hlo]; cbn [andb].
  - destruct (N.leb_spec c 126) as [Hhi|Hhi]; cbn [andb].
    + simpl.
      destruct (N.eqb_spec c 34); [contradiction|].
      destruct (N.eqb_spec c 92); [contradiction|].
      destruct (N.ltb_spec c 32); [lia|].
      destruct (N.ltb_spec 1114111 c); [lia|].
      reflexivity.
    + destruct (N.ltb_spec c 65536) as [Hb|Hb].
      * rewrite Hu by exact Hb. apply read_u_escape. exact Hb.
      * cbv zeta. rewrite <- app_assoc.
        rewrite read_u_escape by (apply surrogate_lt; lia).
        rewrite read_u_escape by (apply surrogate_lt; lia).
        unfold utf16_units. destruct (N.ltb_spec c 65536); [lia|].
        destruct (read_chars tail) as [[l r]|]; reflexivity.
  - destruct (N.ltb_spec c 65536) as [Hb|Hb]; [|lia].
    rewrite Hu by exact Hb. apply read_u_escape. exact Hb.
Qed.

Lemma read_chars_escaped (s : str) (rest : str) :
  read_chars (flat_map escape_char s ++ 34 :: rest) = Some (utf16 s, rest).
Proof.
  induction s as [|c s IH]; [reflexivity|].
  simpl. rewrite <- app_assoc, read_escape_char, IH. reflexivity.
Qed.

Lemma read_string_encoded (s : str) (rest : str) :
  read_string (encode_basestring_ascii s ++ rest) = Some (utf16 s, rest).
Proof.
  unfold encode_basestring_ascii. simpl. rewrite <- app_assoc. apply read_chars_escaped.
Qed.

Definition units (kv : str * str) : list N * list N := (utf16 (fst kv), utf16 (snd kv)).

Lemma skip_ws_encoded (s : str) (rest : str) :
  skip_ws (encode_basestring_ascii s ++ rest) = encode_basestring_ascii s ++ rest.
Proof. reflexivity. Qed.

Lemma skip_ws_items (kv : str * str) (d : list (str * str)) (rest : str) :
  skip_ws (dumps_items (kv :: d) ++ rest) = dumps_items (kv :: d) ++ rest.
Proof. destruct d; reflexivity. Qed.

Lemma read_item (kv : str * str) (rest : str) :
  read_string (dumps_item kv ++ rest) =
    Some (utf16 (fst kv),
          58 :: 32 :: encode_basestring_ascii (snd kv) ++ rest).
Proof.
  unfold dumps_item. rewrite <- app_assoc, read_string_encoded.
  rewrite <- app_assoc. reflexivity.
Qed.

Lemma read_members_items (d : list (str * str)) :
  forall (kv : str * str) (fuel : nat) (rest : str),
    (length d < fuel)%nat ->
    read_members fuel (dumps_items (kv :: d) ++ 125 :: rest)
      = Some (map units (kv :: d), rest).
Proof.
  induction d as [|kv' d IH]; intros kv fuel rest Hf;
    (destruct fuel as [|fuel]; [simpl in Hf; lia|]).
  - cbn [dumps_items read_members]. rewrite read_item.
    cbn [skip_ws is_ws N.eqb Pos.eqb orb].
    rewrite skip_ws_encoded, read_string_encoded. reflexivity.
  - change (dumps_items (kv :: kv' :: d))
      with (dumps_item kv ++ lit ", " ++ dumps_items (kv' :: d)).
    cbn [read_members]. rewrite <- !app_assoc, read_item.
    cbn [skip_ws is_ws N.eqb Pos.eqb orb].
    rewrite skip_ws_encoded, read_string_encoded.
    change (lit ", " ++ dumps_items (kv' :: d) ++ 125 :: rest)
      with (44 :: 32 :: dumps_items (kv' :: d) ++ 125 :: rest).
    cbn [skip_ws is_ws N.eqb Pos.eqb orb].
    rewrite skip_ws_items, IH by (simpl in Hf; lia). reflexivity.
Qed.

Lemma dumps_items_length (d : list (str * str)) :
  (length d <= length (dumps_items d))%nat.
Proof.
  induction d as [|kv d IH]; [simpl; lia|].
  destruct d as [|kv' d].
  - simpl. lia.
  - change (dumps_items (kv :: kv' :: d))
      with (dumps_item kv ++ lit ", " ++ dumps_items (kv' :: d)).
    rewrite !length_app. simpl in *. lia.
Qed.

(** Whatever dict of strings is written, the text is one JSON object, and
    reading it gives the same keys and values, in the same order. *)
Lemma loads_dumps (d : list (str * str)) : loads (dumps d) = Some (map units d).
Proof.
  unfold loads, read_object, dumps. destruct d as [|kv d]; [reflexivity|].
  cbn [skip_ws is_ws N.eqb Pos.eqb orb].
  rewrite skip_ws_items.
  assert (Hd : exists t, dumps_items (kv :: d) ++ [125] = 34 :: t).
  { destruct d; simpl; eauto. }
  destruct Hd as [t Ht]. rewrite Ht.
  cbn [N.eqb Pos.eqb]. rewrite <- Ht.
  rewrite read_members_items; [reflexivity|].
  pose proof (dumps_items_length (kv :: d)) as Hl.
  cbn [length]. rewrite length_app. simpl in Hl |- *. lia.
Qed.

Lemma u_escape_printable (n : N) : Forall printable (u_escape n).
Proof.
  unfold u_escape, hex4.
  repeat constructor; try (unfold printable; lia);
    apply hex_digit_printable, mod16_lt.
Qed.

Lemma escape_char_printable (c : N) : Forall printable (escape_char c).
Proof.
  unfold escape_char.
  repeat match goal with
  | |- context [N.eqb c ?b] =>
      destruct (N.eqb_spec c b); [repeat constructor; unfold printable; lia|]
  end.
  destruct (N.leb_spec 32 c); cbn [andb];
    [destruct (N.leb_spec c 126); cbn [andb]|].
  - repeat constructor; unfold printable; lia.
  - destruct (c <? 65536); [apply u_escape_printable|].
    cbv zeta. apply Forall_app. split; apply u_escape_printable.
  - destruct (c <? 65536); [apply u_escape_printable|].
    cbv zeta. apply Forall_app. split; apply u_escape_printable.
Qed.

Lemma encoded_printable (s : str) : Forall printable (encode_basestring_ascii s).
Proof.
  unfold encode_basestring_ascii. constructor; [unfold printable; lia|].
  apply Forall_app. split; [|repeat constructor; unfold printable; lia].
  induction s as [|c s IH]; simpl; [constructor|].
  apply Forall_app. split; [apply escape_char_printable | exact IH].
Qed.

Lemma dumps_item_printable (kv : str * str) : Forall printable (dumps_item kv).
Proof.
  unfold dumps_item. apply Forall_app. split; [apply encoded_printable|].
  apply Forall_app. split; [|apply encoded_printable].
  repeat constructor; unfold printable; simpl; lia.
Qed.

(** [json.dumps] writes printable ASCII only: no line break can occur
    inside the text, and the UTF-8 encoder of the file accepts it. *)
Lemma dumps_printable (d : list (str * str)) : Forall printable (dumps d).
Proof.
  unfold dumps. constructor; [unfold printable; lia|].
  apply Forall_app. split; [|repeat constructor; unfold printable; lia].
  induction d as [|kv d IH]; [constructor|].
  destruct d as [|kv' d]; [apply dumps_item_printable|].
  change (dumps_items (kv :: kv' :: d))
    with (dumps_item kv ++ lit ", " ++ dumps_items (kv' :: d)).
  apply Forall_app. split; [apply dumps_item_printable|].
  apply Forall_app. split; [|exact IH].
  repeat constructor; unfold printable; simpl; lia.
Qed.

End Json.

(* ================================================================== *)
(** * SQLite: the [memory] table *)
(* ================================================================== *)

Module Sqlite.
Import Py.

Local Open Scope Z_scope.

(** CREATE TABLE memory (id INTEGER PRIMARY KEY AUTOINCREMENT,
                         timestamp TEXT, category TEXT, content TEXT) *)
Record row := {
  id : Z;
  timestamp : str;
  category : str;
  content : str
}.

(** The table: its rows in rowid order, and the [sqlite_sequence] entry
    that AUTOINCREMENT keeps for it (the largest rowid handed out so far). *)
Record table := {
  rows : list row;
  sqlite_sequence : Z
}.

(** A table that CREATE TABLE has just made. *)
Definition empty_table : table := {| rows := []; sqlite_sequence := 0 |}.

(** The largest rowid a table can hold, 2^63 - 1. *)
Definition MAX_ROWID : Z := 9223372036854775807.

Definition largest_rowid (rs : list row) : Z :=
  fold_right (fun r m => Z.max (id r) m) 0 rs.

(** AUTOINCREMENT: one more than the largest rowid that was ever in the
    table, which is the larger of the largest rowid present and the
    [sqlite_sequence] entry. *)
Definition last_rowid (t : table) : Z :=
  Z.max (largest_rowid (rows t)) (sqlite_sequence t).

(** ** What the engine refuses *)

(** The ways in which the two statements of the service fail. *)
Inductive error :=
| encode_error         (* a str with a lone surrogate has no UTF-8 encoding *)
| overflow_error       (* the encoding is longer than INT_MAX bytes *)
| too_big              (* SQLITE_TOOBIG: string or blob too big *)
| full                 (* SQLITE_FULL: database or disk is full *)
| pattern_too_complex. (* SQLITE_ERROR: LIKE or GLOB pattern too complex *)

Definition is_surrogate (c : N) : bool := ((55296 <=? c) && (c <=? 57343))%N.

(** The number of bytes of a character, and of a str, in UTF-8. *)
Definition utf8_width (c : N) : Z :=
  if (c <? 128)%N then 1
  else if (c <? 2048)%N then 2
  else if (c <? 65536)%N then 3
  else 4.

Definition utf8_length (s : str) : Z :=
  fold_right (fun c n => utf8_width c + n) 0 s.

Definition INT_MAX : Z := 2147483647.
Definition SQLITE_MAX_LENGTH : Z := 1000000000.
Definition SQLITE_MAX_LIKE_PATTERN_LENGTH : Z := 50000.

(** Binding a [str] to a [?] of a statement: the module encodes it in
    UTF-8, refuses more than INT_MAX bytes, and hands it to
    [sqlite3_bind_text], which refuses more than SQLITE_MAX_LENGTH bytes.
    [None] says that the parameter is bound. *)
Definition bind (s : str) : option error :=
  if existsb is_surrogate s then Some encode_error
  else if INT_MAX <? utf8_length s then Some overflow_error
  else if SQLITE_MAX_LENGTH <? utf8_length s then Some too_big
  else None.

(** The length of the varint that holds [v]. *)
Definition varint_length (v : Z) : Z :=
  if v <=? 127 then 1
  else if v <=? 16383 then 2
  else if v <=? 2097151 then 3
  else if v <=? 268435455 then 4
  else if v <=? 34359738367 then 5
  else 9.

(** The size of the record of a row: the header, with one byte for its
    own length, one for the id (kept as the rowid, NULL in the record) and
    the serial type [2 n + 13] of each text of [n] bytes, and then the
    texts. *)
Definition record_size (ts cat body : str) : Z :=
  2 + varint_length (2 * utf8_length ts + 13)
    + varint_length (2 * utf8_length cat + 13)
    + varint_length (2 * utf8_length body + 13)
    + utf8_length ts + utf8_length cat + utf8_length body.

(** INSERT INTO memory (timestamp, category, content) VALUES (?, ?, ?).
    The three parameters are bound in this order; then the statement runs:
    it takes the next rowid, which fails once the largest rowid has been
    used, and makes the record, which fails when that is longer than
    SQLITE_MAX_LENGTH.  A statement that fails leaves the table as it
    was. *)
Definition insert (ts cat body : str) (t : table) : error + table :=
  match bind ts with
  | Some e => inl e
  | None =>
      match bind cat with
      | Some e => inl e
      | None =>
          match bind body with
          | Some e => inl e
          | None =>
              if MAX_ROWID <=? last_rowid t then inl full
              else if SQLITE_MAX_LENGTH <? record_size ts cat body then inl too_big
              else
                let rowid := last_rowid t + 1 in
                inr {| rows := rows t ++ [{| id := rowid; timestamp := ts;
                                             category := cat; content := body |}];
                       sqlite_sequence := rowid |}
          end
      end
  end.

(** ** The LIKE operator (no ESCAPE clause, default case folding) *)

Local Open Scope N_scope.

Definition ascii_lower (c : N) : N :=
  if (65 <=? c) && (c <=? 90) then c + 32 else c.

(** An ordinary pattern character matches itself, and an ASCII letter
    matches its other case as well. *)
Definition same_char (p c : N) : bool := ascii_lower p =? ascii_lower c.

(** [patternCompare p t], on the characters of a pattern and of a text:
    [%] (37) stands for any run of characters, [_] (95) for any one
    character. *)
Fixpoint patternCompare (p : str) : str -> bool :=
  match p with
  | [] => fun t => match t with [] => true | _ :: _ => false end
  | c :: p' =>
      if c =? 37 then
        fix any_run (t : str) : bool :=
          patternCompare p' t || match t with [] => false | _ :: t' => any_run t' end
      else if c =? 95 then
        fun t => match t with [] => false | _ :: t' => patternCompare p' t' end
      else
        fun t => match t with [] => false | d :: t' => same_char c d && patternCompare p' t' end
  end.

(** The characters the engine reads from a text value: the value is
    read as a C string, up to its first NUL, and the characters U+FFFE and
    U+FFFF are read as U+FFFD ([sqlite3Utf8Read]). *)
Fixpoint c_string (s : str) : str :=
  match s with
  | [] => []
  | c :: s' => if c =? 0 then [] else c :: c_string s'
  end.

Definition read_char (c : N) : N :=
  if (c =? 65534) || (c =? 65535) then 65533 else c.

Definition value_text (s : str) : str := map read_char (c_string s).

(** [like pattern text] is [text LIKE pattern] on two text values. *)
Definition like (pattern text : str) : bool :=
  patternCompare (value_text pattern) (value_text text).

(** SELECT timestamp, category, content FROM memory WHERE content LIKE ?
    with the parameter [pattern].  The parameter is bound first.  The rows
    come in rowid order; LIKE is evaluated on the first row before any row
    is returned, and refuses a pattern of more than
    SQLITE_MAX_LIKE_PATTERN_LENGTH bytes; on an empty table it is not
    evaluated. *)
Definition select_like (pattern : str) (t : table) : error + list row :=
  match bind pattern with
  | Some e => inl e
  | None =>
      match rows t with
      | [] => inr []
      | _ :: _ =>
          if (SQLITE_MAX_LIKE_PATTERN_LENGTH <? utf8_length pattern)%Z
          then inl pattern_too_complex
          else inr (filter (fun r => like pattern (content r) = true) (rows t))
      end
  end.

(** ** Facts about [patternCompare] *)

Lemma like_percent (p t : str) :
  patternCompare (37 :: p) t = patternCompare p t || match t with [] => false | _ :: t' => patternCompare (37 :: p) t' end.
Proof. destruct t; reflexivity. Qed.

Lemma like_percent_here (p t : str) : patternCompare p t = true -> patternCompare (37 :: p) t = true.
Proof. intros H. rewrite like_percent, H. reflexivity. Qed.

Lemma like_percent_skip (p pre t : str) :
  patternCompare (37 :: p) t = true -> patternCompare (37 :: p) (pre ++ t) = true.
Proof.
  intros H. induction pre as [|c pre IH]; [exact H|].
  cbn [app]. rewrite like_percent, IH. apply orb_true_r.
Qed.

Lemma like_percent_all (t : str) : patternCompare [37] t = true.
Proof.
  induction t as [|c t IH]; [reflexivity|].
  rewrite like_percent, IH. apply orb_true_r.
Qed.

Lemma same_char_refl (c : N) : same_char c c = true.
Proof. unfold same_char. apply N.eqb_refl. Qed.

(** A pattern matches the text it spells, wildcards or not. *)
Lemma like_itself_then (k p post : str) :
  patternCompare p post = true -> patternCompare (k ++ p) (k ++ post) = true.
Proof.
  intros H. induction k as [|c k IH]; [exact H|].
  cbn [app]. destruct (N.eqb_spec c 37) as [->|H37].
  - apply like_percent_skip with (pre := [37]), like_percent_here, IH.
  - cbn [patternCompare]. destruct (N.eqb_spec c 37); [contradiction|].
    destruct (c =? 95); [exact IH|].
    rewrite same_char_refl, IH. reflexivity.
Qed.

(** Every text that contains [k] matches the pattern ['%' + k + '%']. *)
Lemma like_substring (k s : str) :
  substring k s -> patternCompare (37 :: k ++ [37]) s = true.
Proof.
  intros [pre [post ->]].
  apply like_percent_skip, like_percent_here, like_itself_then, like_percent_all.
Qed.

(** [k] occurs in [s] when ASCII letters are compared without regard to
    case. *)
Definition contains_nocase (k s : str) : Prop :=
  exists pre m post,
    s = pre ++ m ++ post /\ Forall2 (fun a b => same_char a b = true) k m.

(** A keyword that holds neither [%] nor [_]. *)
Definition wildcard_free (k : str) : Prop := Forall (fun c => c <> 37 /\ c <> 95) k.

Lemma like_percent_inv (p t : str) :
  patternCompare (37 :: p) t = true -> exists pre t', t = pre ++ t' /\ patternCompare p t' = true.
Proof.
  induction t as [|c t IH]; rewrite like_percent; intros H.
  - rewrite orb_false_r in H. exists [], []. split; [reflexivity | exact H].
  - apply orb_true_iff in H as [H|H].
    + exists [], (c :: t). split; [reflexivity | exact H].
    + destruct (IH H) as [pre [t' [-> Ht']]].
      exists (c :: pre), t'. split; [reflexivity | exact Ht'].
Qed.

Lemma like_literal_inv (k t : str) :
  wildcard_free k -> patternCompare (k ++ [37]) t = true ->
  exists m post, t = m ++ post /\ Forall2 (fun a b => same_char a b = true) k m.
Proof.
  intros Hk. revert t. induction Hk as [|c k [H37 H95] Hk IH]; intros t H.
  - exists [], t. split; [reflexivity | constructor].
  - cbn [app patternCompare] in H.
    destruct (N.eqb_spec c 37); [contradiction|].
    destruct (N.eqb_spec c 95); [contradiction|].
    destruct t as [|d t]; [discriminate|].
    apply andb_true_iff in H as [Hc H].
    destruct (IH t H) as [m [post [-> Hm]]].
    exists (d :: m), post. split; [reflexivity | constructor; assumption].
Qed.

(** For a keyword without wildcards, ['%' + k + '%'] matches exactly the
    texts that contain [k] up to the case of ASCII letters. *)
Lemma like_contains_nocase (k s : str) :
  wildcard_free k -> patternCompare (37 :: k ++ [37]) s = true -> contains_nocase k s.
Proof.
  intros Hk H.
  destruct (like_percent_inv _ _ H) as [pre [t' [-> Ht']]].
  destruct (like_literal_inv k t' Hk Ht') as [m [post [-> Hm]]].
  exists pre, m, post. split; [reflexivity | exact Hm].
Qed.

Lemma like_literal (k m post : str) :
  wildcard_free k -> Forall2 (fun a b => same_char a b = true) k m ->
  patternCompare (k ++ [37]) (m ++ post) = true.
Proof.
  intros Hk Hm. induction Hm as [|c d k m Hcd _ IH]; [apply like_percent_all|].
  apply Forall_cons_1 in Hk as [[H37 H95] Hk].
  cbn [app patternCompare]. destruct (N.eqb_spec c 37); [contradiction|].
  destruct (N.eqb_spec c 95); [contradiction|].
  rewrite Hcd, (IH Hk). reflexivity.
Qed.

Lemma contains_nocase_like (k s : str) :
  wildcard_free k -> contains_nocase k s -> patternCompare (37 :: k ++ [37]) s = true.
Proof.
  intros Hk [pre [m [post [-> Hm]]]].
  apply like_percent_skip, like_percent_here, like_literal; assumption.
Qed.

(** ** Facts about AUTOINCREMENT *)

Local Open Scope Z_scope.

Definition new_row (ts cat body : str) (t : table) : row :=
  {| id := last_rowid t + 1; timestamp := ts; category := cat; content := body |}.

Lemma insert_inr (ts cat body : str) (t t' : table) :
  insert ts cat body t = inr t' ->
  bind ts = None /\ bind cat = None /\ bind body = None
  /\ last_rowid t < MAX_ROWID
  /\ record_size ts cat body <= SQLITE_MAX_LENGTH
  /\ t' = {| rows := rows t ++ [new_row ts cat body t];
             sqlite_sequence := last_rowid t + 1 |}.
Proof.
  unfold insert.
  destruct (bind ts); [discriminate|]. destruct (bind cat); [discriminate|].
  destruct (bind body); [discriminate|].
  destruct (Z.leb_spec MAX_ROWID (last_rowid t)); [discriminate|].
  destruct (Z.ltb_spec SQLITE_MAX_LENGTH (record_size ts cat body)); [discriminate|].
  intros [= <-]. repeat split; assumption.
Qed.

Lemma insert_succeeds (ts cat body : str) (t : table) :
  bind ts = None -> bind cat = None -> bind body = None ->
  last_rowid t < MAX_ROWID ->
  record_size ts cat body <= SQLITE_MAX_LENGTH ->
  insert ts cat body t
    = inr {| rows := rows t ++ [new_row ts cat body t];
             sqlite_sequence := last_rowid t + 1 |}.
Proof.
  intros H1 H2 H3 Hid Hsize. unfold insert. rewrite H1, H2, H3.
  destruct (Z.leb_spec MAX_ROWID (last_rowid t)); [lia|].
  destruct (Z.ltb_spec SQLITE_MAX_LENGTH (record_size ts cat body)); [lia | reflexivity].
Qed.



Lemma largest_rowid_bound (rs : list row) :
  Forall (fun r => id r <= largest_rowid rs) rs.
Proof.
  induction rs as [|r rs IH]; constructor; simpl.
  - lia.
  - eapply Forall_impl; [exact IH|]. simpl. intros; lia.
Qed.

(** The rowid of a new row is above every rowid present and above the
    [sqlite_sequence] entry. *)
Lemma new_row_above (ts cat body : str) (t : table) :
  Forall (fun r => id r < id (new_row ts cat body t)) (rows t)
  /\ sqlite_sequence t < id (new_row ts cat body t).
Proof.
  unfold new_row, last_rowid. simpl. split; [|lia].
  eapply Forall_impl; [apply largest_rowid_bound|]. simpl. intros; lia.
Qed.

(** The rowids of the rows grow in table order, start at 1 and are at most
    the [sqlite_sequence] entry. *)
Definition consistent (t : table) : Prop :=
  StronglySorted Z.lt (map id (rows t))
  /\ Forall (fun r => 1 <= id r <= sqlite_sequence t) (rows t).

Lemma StronglySorted_snoc (l : list Z) (x : Z) :
  StronglySorted Z.lt l -> Forall (fun y => y < x) l -> StronglySorted Z.lt (l ++ [x]).
Proof.
  induction 1 as [|a l Hs IH Ha]; intros Hx; simpl.
  - repeat constructor.
  - apply Forall_cons_1 in Hx as [Hax Hx]. constructor; [apply IH, Hx|].
    apply Forall_app. split; [exact Ha | repeat constructor; exact Hax].
Qed.

Lemma empty_table_consistent : consistent empty_table.
Proof. split; constructor. Qed.

Lemma insert_consistent (ts cat body : str) (t t' : table) :
  consistent t -> insert ts cat body t = inr t' -> consistent t'.
Proof.
  intros [Hs Hb] H. apply insert_inr in H as [_ [_ [_ [_ [_ ->]]]]].
  destruct (new_row_above ts cat body t) as [Habove Hseq].
  split; simpl.
  - rewrite map_app. apply StronglySorted_snoc; [exact Hs|].
    apply Forall_forall. intros y Hy. apply list_elem_of_In, in_map_iff in Hy.
    destruct Hy as [r [<- Hr]]. apply list_elem_of_In in Hr.
    rewrite Forall_forall in Habove. apply Habove, Hr.
  - apply Forall_app. split.
    + eapply Forall_impl; [exact Hb|]. simpl. unfold last_rowid. intros; lia.
    + repeat constructor; simpl; unfold last_rowid; [|lia].
      assert (0 <= largest_rowid (rows t)); [|lia].
      clear. induction (rows t); simpl; lia.
Qed.

(** ** More facts about LIKE: case, wildcard-only patterns, row order *)

Local Open Scope N_scope.

Lemma ascii_lower_idem (c : N) : ascii_lower (ascii_lower c) = ascii_lower c.
Proof.
  unfold ascii_lower.
  destruct ((65 <=? c) && (c <=? 90)) eqn:E; [|rewrite E; reflexivity].
  apply andb_true_iff in E as [Hlo Hhi]. apply N.leb_le in Hlo, Hhi.
  destruct (N.leb_spec (c + 32) 90); [lia|]. rewrite andb_false_r. reflexivity.
Qed.

Lemma ascii_lower_wildcard (c w : N) :
  w = 37 \/ w = 95 -> (ascii_lower c =? w) = (c =? w).
Proof.
  intros Hw. unfold ascii_lower.
  destruct ((65 <=? c) && (c <=? 90)) eqn:E; [|reflexivity].
  apply andb_true_iff in E as [Hlo Hhi].
  apply N.leb_le in Hlo, Hhi.
  destruct (N.eqb_spec (c + 32) w), (N.eqb_spec c w); try reflexivity; lia.
Qed.

Lemma like_percent_ext (p q : str) :
  (forall t, patternCompare p t = patternCompare q t) -> forall t, patternCompare (37 :: p) t = patternCompare (37 :: q) t.
Proof.
  intros H. induction t as [|c t IH].
  - rewrite (like_percent p []), (like_percent q []), H. reflexivity.
  - rewrite (like_percent p (c :: t)), (like_percent q (c :: t)), H, IH. reflexivity.
Qed.

(** LIKE looks at the pattern up to the case of its ASCII letters only. *)
Lemma like_lower (p : str) : forall t, patternCompare (map ascii_lower p) t = patternCompare p t.
Proof.
  induction p as [|c p IH]; intros t; [reflexivity|].
  cbn [map]. destruct (N.eqb_spec c 37) as [->|H37].
  - apply like_percent_ext, IH.
  - cbn [patternCompare]. rewrite !ascii_lower_wildcard by auto.
    destruct (N.eqb_spec c 37); [contradiction|].
    destruct (c =? 95).
    + destruct t; [reflexivity | apply IH].
    + destruct t as [|d t]; [reflexivity|].
      unfold same_char. rewrite ascii_lower_idem, IH. reflexivity.
Qed.

Lemma like_same_lower (p q t : str) :
  map ascii_lower p = map ascii_lower q -> patternCompare p t = patternCompare q t.
Proof. intros H. rewrite <- (like_lower p), <- (like_lower q), H. reflexivity. Qed.

(** A pattern made of [%] only, one at least, matches every text. *)
Lemma like_only_percent (p t : str) :
  Forall (fun c => c = 37) p -> p <> [] -> patternCompare p t = true.
Proof.
  induction 1 as [|c p -> Hp IH]; intros Hne; [contradiction|].
  destruct p as [|d p]; [apply like_percent_all|].
  apply like_percent_here, IH. discriminate.
Qed.

(** A pattern of [n] underscores between two [%] matches the texts of
    at least [n] characters. *)
Lemma like_underscores (n : nat) :
  forall t : str,
    patternCompare (37 :: replicate n 95 ++ [37]) t = true <-> (n <= length t)%nat.
Proof.
  assert (Hin : forall (m : nat) (t : str),
            patternCompare (replicate m 95 ++ [37]) t = true <-> (m <= length t)%nat).
  { induction m as [|m IH]; intros t.
    - cbn [replicate app]. rewrite like_percent_all. split; [simpl; lia | reflexivity].
    - cbn [replicate app patternCompare N.eqb Pos.eqb]. destruct t as [|d t].
      + split; [discriminate | simpl; lia].
      + rewrite IH. simpl. lia. }
  intros t. split.
  - intros H. apply like_percent_inv in H as [pre [t' [-> H]]].
    apply Hin in H. rewrite length_app. lia.
  - intros H. rewrite <- (take_drop (length t - n) t).
    apply like_percent_skip, like_percent_here, Hin.
    rewrite length_drop. lia.
Qed.

(** ** Facts about binding and about LIKE on text values *)

Lemma utf8_width_pos (c : N) : (1 <= utf8_width c <= 4)%Z.
Proof. unfold utf8_width. repeat destruct (_ <? _); lia. Qed.

Lemma utf8_length_nonneg (s : str) : (0 <= utf8_length s)%Z.
Proof.
  induction s as [|c s IH]; simpl; [lia|]. pose proof (utf8_width_pos c). lia.
Qed.

Lemma utf8_length_app (s1 s2 : str) :
  utf8_length (s1 ++ s2) = (utf8_length s1 + utf8_length s2)%Z.
Proof. induction s1 as [|c s1 IH]; simpl; [reflexivity|]. rewrite IH. lia. Qed.

Lemma utf8_length_pattern (k : str) :
  utf8_length (37 :: k ++ [37]) = (utf8_length k + 2)%Z.
Proof.
  change (37 :: k ++ [37]) with ([37] ++ k ++ [37]).
  rewrite !utf8_length_app. change (utf8_length [37]) with 1%Z. lia.
Qed.

Lemma surrogate_pattern (k : str) :
  existsb is_surrogate (37 :: k ++ [37]) = existsb is_surrogate k.
Proof. cbn [existsb]. rewrite existsb_app. simpl. rewrite orb_false_r. reflexivity. Qed.

Lemma bind_None_iff (s : str) :
  bind s = None <->
  existsb is_surrogate s = false /\ (utf8_length s <= SQLITE_MAX_LENGTH)%Z.
Proof.
  unfold bind, INT_MAX, SQLITE_MAX_LENGTH.
  destruct (existsb is_surrogate s); [split; [discriminate | intros [H _]; discriminate H]|].
  destruct (Z.ltb_spec 2147483647 (utf8_length s));
    [split; [discriminate | intros [_ H']; lia]|].
  destruct (Z.ltb_spec 1000000000 (utf8_length s));
    [split; [discriminate | intros [_ H']; lia]|].
  split; [intros _; split; [reflexivity | lia] | reflexivity].
Qed.

(** A part of a text that can be bound makes a pattern that can be
    bound, when the pattern is short enough. *)
Lemma bind_pattern_of_substring (k s : str) :
  substring k s -> bind s = None ->
  (utf8_length k + 2 <= SQLITE_MAX_LENGTH)%Z ->
  bind (37 :: k ++ [37]) = None.
Proof.
  intros [pre [post ->]] Hs Hk. apply bind_None_iff in Hs as [Hs _].
  apply bind_None_iff. rewrite surrogate_pattern, utf8_length_pattern. split; [|exact Hk].
  rewrite !existsb_app in Hs. apply orb_false_iff in Hs as [_ Hs].
  apply orb_false_iff in Hs as [Hs _]. exact Hs.
Qed.

Lemma select_like_inr (pattern : str) (t : table) :
  bind pattern = None ->
  rows t = [] \/ (utf8_length pattern <= SQLITE_MAX_LIKE_PATTERN_LENGTH)%Z ->
  select_like pattern t
    = inr (filter (fun r => like pattern (content r) = true) (rows t)).
Proof.
  intros Hb H. unfold select_like. rewrite Hb.
  destruct (rows t) as [|r rs] eqn:E; [reflexivity|].
  destruct H as [H|H]; [discriminate H|].
  destruct (Z.ltb_spec SQLITE_MAX_LIKE_PATTERN_LENGTH (utf8_length pattern)); [lia|].
  reflexivity.
Qed.

Lemma select_like_too_complex (pattern : str) (t : table) :
  bind pattern = None -> rows t <> [] ->
  (SQLITE_MAX_LIKE_PATTERN_LENGTH < utf8_length pattern)%Z ->
  select_like pattern t = inl pattern_too_complex.
Proof.
  intros Hb Hr H. unfold select_like. rewrite Hb.
  destruct (rows t) as [|r rs]; [contradiction|].
  destruct (Z.ltb_spec SQLITE_MAX_LIKE_PATTERN_LENGTH (utf8_length pattern));
    [reflexivity | lia].
Qed.

(** A character the engine reads as it is written. *)
Definition read_as_written (c : N) : Prop := c <> 65534 /\ c <> 65535.

Lemma read_char_written (s : str) :
  Forall read_as_written s -> map read_char s = s.
Proof.
  induction 1 as [|c s [H1 H2] _ IH]; [reflexivity|].
  cbn [map]. rewrite IH. unfold read_char.
  destruct (N.eqb_spec c 65534); [contradiction|].
  destruct (N.eqb_spec c 65535); [contradiction|]. reflexivity.
Qed.

Lemma c_string_no_nul (s : str) : Forall (fun c => c <> 0) s -> c_string s = s.
Proof.
  induction 1 as [|c s H _ IH]; [reflexivity|].
  cbn [c_string]. destruct (N.eqb_spec c 0); [contradiction|]. rewrite IH. reflexivity.
Qed.

Lemma c_string_prefix (s : str) : exists rest, s = c_string s ++ rest.
Proof.
  induction s as [|c s [rest IH]]; [exists []; reflexivity|].
  cbn [c_string]. destruct (c =? 0); [exists (c :: s); reflexivity|].
  exists rest. cbn [app]. rewrite <- IH. reflexivity.
Qed.

Lemma value_text_pattern (k : str) :
  Forall (fun c => c <> 0) k ->
  value_text (37 :: k ++ [37]) = 37 :: map read_char k ++ [37].
Proof.
  intros Hk. unfold value_text. rewrite c_string_no_nul.
  - cbn [map]. rewrite map_app. reflexivity.
  - constructor; [discriminate|]. apply Forall_app. split; [exact Hk|].
    repeat constructor. discriminate.
Qed.

(** A text without NUL matches ['%' + k + '%'] for each of its parts [k]. *)
Lemma like_substring_text (k s : str) :
  Forall (fun c => c <> 0) s -> substring k s -> like (37 :: k ++ [37]) s = true.
Proof.
  intros Hs [pre [post ->]]. unfold like.
  assert (Hk : Forall (fun c => c <> 0) k).
  { apply Forall_app in Hs as [_ Hs]. apply Forall_app in Hs as [Hs _]. exact Hs. }
  rewrite (value_text_pattern k Hk). unfold value_text.
  rewrite (c_string_no_nul _ Hs), !map_app.
  apply like_substring. exists (map read_char pre), (map read_char post). reflexivity.
Qed.

(** A keyword in which every character stands for itself: no wildcard, no
    NUL, none of the characters that are read as U+FFFD, nor U+FFFD. *)
Definition plain (k : str) : Prop :=
  Forall (fun c => c <> 37 /\ c <> 95 /\ c <> 0
                   /\ c <> 65533 /\ c <> 65534 /\ c <> 65535
                   /\ is_surrogate c = false) k.

Lemma plain_no_surrogate (k : str) : plain k -> existsb is_surrogate k = false.
Proof.
  induction 1 as [|c k Hc _ IH]; [reflexivity|].
  cbn [existsb]. rewrite IH. destruct Hc as [_ [_ [_ [_ [_ [_ ->]]]]]]. reflexivity.
Qed.

Lemma plain_wildcard_free (k : str) : plain k -> wildcard_free k.
Proof. intros H. eapply Forall_impl; [exact H|]. simpl. tauto. Qed.

Lemma plain_value_text (k : str) :
  plain k -> value_text (37 :: k ++ [37]) = 37 :: k ++ [37].
Proof.
  intros H. rewrite value_text_pattern, read_char_written; [reflexivity| |].
  - eapply Forall_impl; [exact H|]. unfold read_as_written. simpl. tauto.
  - eapply Forall_impl; [exact H|]. simpl. tauto.
Qed.

Lemma ascii_lower_eq_inv (c d : N) :
  ascii_lower c = d -> (d < 97 \/ 122 < d) -> c = d.
Proof.
  unfold ascii_lower. destruct ((65 <=? c) && (c <=? 90)) eqn:E; [|tauto].
  apply andb_true_iff in E as [Hlo Hhi]. apply N.leb_le in Hlo, Hhi. lia.
Qed.

(** For a plain keyword the characters read as U+FFFD cannot take part in
    a match. *)
Lemma same_char_read (k m : str) :
  plain k ->
  (Forall2 (fun a b => same_char a b = true) k (map read_char m)
   <-> Forall2 (fun a b => same_char a b = true) k m).
Proof.
  intros Hk. revert m. induction Hk as [|c k Hc Hk IH]; intros m.
  - destruct m; split; intros H; inversion H; constructor.
  - destruct m as [|d m]; [split; intros H; inversion H|].
    cbn [map].
    assert (Hd : same_char c (read_char d) = same_char c d).
    { unfold read_char. destruct ((d =? 65534) || (d =? 65535)) eqn:E; [|reflexivity].
      unfold same_char.
      assert (Hl : forall x, (65533 <= x) -> ascii_lower x = x).
      { intros x Hx. unfold ascii_lower. destruct (N.leb_spec x 90); [lia|].
        rewrite andb_false_r. reflexivity. }
      apply orb_true_iff in E.
      rewrite (Hl 65533) by lia. rewrite (Hl d) by (destruct E as [E|E]; apply N.eqb_eq in E; lia).
      destruct (N.eqb_spec (ascii_lower c) 65533) as [E1|E1].
      - apply ascii_lower_eq_inv in E1; [|lia]. tauto.
      - destruct (N.eqb_spec (ascii_lower c) d) as [E2|E2]; [|reflexivity].
        apply ascii_lower_eq_inv in E2; [|destruct E as [E|E]; apply N.eqb_eq in E; lia].
        destruct E as [E|E]; apply N.eqb_eq in E; subst; tauto. }
    split; intros H; inversion H; subst; constructor;
      try (apply IH; assumption); congruence.
Qed.

(** For a plain keyword, LIKE with ['%' + k + '%'] is a search for [k] in
    the text up to its first NUL, ASCII letters compared without regard to
    case. *)
Lemma like_plain (k s : str) :
  plain k ->
  (like (37 :: k ++ [37]) s = true <-> contains_nocase k (c_string s)).
Proof.
  intros Hk. unfold like. rewrite (plain_value_text k Hk). unfold value_text. split.
  - intros H. apply like_contains_nocase in H; [|apply plain_wildcard_free, Hk].
    destruct H as [pre [m [post [E Hm]]]].
    apply map_eq_app in E as [x1 [x23 [-> [_ E]]]].
    apply map_eq_app in E as [x2 [x3 [-> [<- _]]]].
    exists x1, x2, x3. split; [reflexivity|]. apply (same_char_read k x2 Hk), Hm.
  - intros [pre [m [post [E Hm]]]].
    apply contains_nocase_like; [apply plain_wildcard_free, Hk|].
    exists (map read_char pre), (map read_char m), (map read_char post).
    rewrite E, !map_app. split; [reflexivity|]. apply (same_char_read k m Hk), Hm.
Qed.

Lemma contains_nocase_c_string (k s : str) :
  contains_nocase k (c_string s) -> contains_nocase k s.
Proof.
  intros [pre [m [post [E Hm]]]]. destruct (c_string_prefix s) as [rest Hs].
  exists pre, m, (post ++ rest). split; [|exact Hm].
  rewrite Hs, E, <- !app_assoc. reflexivity.
Qed.

(** *** The case of ASCII letters in a pattern *)

Lemma ascii_lower_cases (c : N) :
  ascii_lower c = c \/ (65 <= c <= 90 /\ ascii_lower c = c + 32).
Proof.
  unfold ascii_lower. destruct ((65 <=? c) && (c <=? 90)) eqn:E; [|left; reflexivity].
  apply andb_true_iff in E as [Hlo Hhi]. apply N.leb_le in Hlo, Hhi. right. lia.
Qed.

Lemma c_string_lower (s : str) :
  c_string (map ascii_lower s) = map ascii_lower (c_string s).
Proof.
  induction s as [|c s IH]; [reflexivity|]. cbn [map c_string]. rewrite IH.
  assert (E : (ascii_lower c =? 0) = (c =? 0)).
  { destruct (ascii_lower_cases c) as [->|[Hc ->]]; [reflexivity|].
    destruct (N.eqb_spec (c + 32) 0); [lia|]. destruct (N.eqb_spec c 0); [lia|]. reflexivity. }
  rewrite E. destruct (c =? 0); reflexivity.
Qed.

Lemma read_char_lower (c : N) : read_char (ascii_lower c) = ascii_lower (read_char c).
Proof.
  destruct (ascii_lower_cases c) as [E|[Hc E]].
  - rewrite E. unfold read_char. destruct ((c =? 65534) || (c =? 65535)) eqn:Ec; [|exact (eq_sym E)].
    unfold ascii_lower. destruct (N.leb_spec 65533 90); [lia|]. rewrite andb_false_r. reflexivity.
  - rewrite E. unfold read_char.
    destruct (N.eqb_spec (c + 32) 65534); [lia|]. destruct (N.eqb_spec (c + 32) 65535); [lia|].
    destruct (N.eqb_spec c 65534); [lia|]. destruct (N.eqb_spec c 65535); [lia|].
    cbn [orb]. exact (eq_sym E).
Qed.

Lemma value_text_lower (s : str) :
  value_text (map ascii_lower s) = map ascii_lower (value_text s).
Proof.
  unfold value_text. rewrite c_string_lower, !map_map.
  apply map_ext. intros c. apply read_char_lower.
Qed.

Lemma like_text_lower (p t : str) : like (map ascii_lower p) t = like p t.
Proof. unfold like. rewrite value_text_lower. apply like_lower. Qed.

Lemma utf8_length_lower (s : str) : utf8_length (map ascii_lower s) = utf8_length s.
Proof.
  induction s as [|c s IH]; [reflexivity|]. cbn [map utf8_length fold_right].
  fold (utf8_length (map ascii_lower s)). fold (utf8_length s). rewrite IH. f_equal.
  destruct (ascii_lower_cases c) as [->|[Hc ->]]; [reflexivity|].
  unfold utf8_width. destruct (N.ltb_spec (c + 32) 128); [|lia].
  destruct (N.ltb_spec c 128); [reflexivity | lia].
Qed.

Lemma surrogate_lower (s : str) :
  existsb is_surrogate (map ascii_lower s) = existsb is_surrogate s.
Proof.
  induction s as [|c s IH]; [reflexivity|]. cbn [map existsb]. rewrite IH. f_equal.
  destruct (ascii_lower_cases c) as [->|[Hc ->]]; [reflexivity|].
  unfold is_surrogate. destruct (N.leb_spec 55296 (c + 32)); [lia|].
  destruct (N.leb_spec 55296 c); [lia | reflexivity].
Qed.

Lemma bind_lower (s : str) : bind (map ascii_lower s) = bind s.
Proof. unfold bind. rewrite surrogate_lower, utf8_length_lower. reflexivity. Qed.

(** The SELECT does not tell apart two patterns that differ in the case
    of ASCII letters only. *)
Lemma select_like_lower (p : str) (t : table) :
  select_like (map ascii_lower p) t = select_like p t.
Proof.
  unfold select_like. rewrite bind_lower, utf8_length_lower.
  destruct (bind p); [reflexivity|]. destruct (rows t) as [|r rs]; [reflexivity|].
  destruct (_ <? _)%Z; [reflexivity|]. f_equal.
  apply list_filter_iff. intros x. rewrite like_text_lower. tauto.
Qed.

(** *** Patterns without text *)

Lemma value_text_only (c : N) (n : nat) :
  c <> 0 -> read_as_written c ->
  value_text (37 :: replicate n c ++ [37]) = 37 :: replicate n c ++ [37].
Proof.
  intros H0 Hc. rewrite value_text_pattern, read_char_written; [reflexivity| |].
  - apply Forall_replicate. exact Hc.
  - apply Forall_replicate. exact H0.
Qed.

Lemma utf8_length_replicate_ascii (c : N) (n : nat) :
  c < 128 -> utf8_length (replicate n c) = Z.of_nat n.
Proof.
  intros Hc. induction n as [|n IH]; [reflexivity|].
  cbn [replicate utf8_length fold_right]. fold (utf8_length (replicate n c)). rewrite IH.
  unfold utf8_width. destruct (N.ltb_spec c 128); lia.
Qed.

Lemma surrogate_replicate_ascii (c : N) (n : nat) :
  c < 128 -> existsb is_surrogate (replicate n c) = false.
Proof.
  intros Hc. induction n as [|n IH]; [reflexivity|].
  cbn [replicate existsb]. rewrite IH. unfold is_surrogate.
  destruct (N.leb_spec 55296 c); [lia | reflexivity].
Qed.

Lemma length_value_text (s : str) : length (value_text s) = length (c_string s).
Proof. unfold value_text. apply length_map. Qed.

Lemma largest_rowid_le (rs : list row) (bound : Z) :
  (0 <= bound)%Z -> Forall (fun r => (id r <= bound)%Z) rs ->
  (largest_rowid rs <= bound)%Z.
Proof.
  intros Hb H. induction H as [|r rs Hr _ IH]; simpl; lia.
Qed.

End Sqlite.

(* ================================================================== *)
(** * The service *)
(* ================================================================== *)

(** ** State, failures and the monad the handlers run in *)

(** What the process can observe and change: the clock (the number of
    times it was read), the log file (absent until first written) and the
    [memory] table of the database file. *)
Record world := {
  ticks : nat;
  LOG_FILE : option Py.str;
  MEMORY_DB : Sqlite.table
}.

(** The exceptions of the model: [sqlite3.OperationalError] with its
    message, [UnicodeEncodeError] and [OverflowError] from the binding of a
    parameter, and [DataError], which stands for the exception the module
    raises for SQLITE_TOOBIG. *)
Inductive exn :=
| OperationalError (msg : Py.str)
| UnicodeEncodeError
| OverflowError
| DataError.

(** The exception a failed statement raises. *)
Definition sqlite_exception (e : Sqlite.error) : exn :=
  match e with
  | Sqlite.encode_error => UnicodeEncodeError
  | Sqlite.overflow_error => OverflowError
  | Sqlite.too_big => DataError
  | Sqlite.full => OperationalError (Py.lit "database or disk is full")
  | Sqlite.pattern_too_complex =>
      OperationalError (Py.lit "LIKE or GLOB pattern too complex")
  end.

Inductive result (A : Type) :=
| Ok (a : A)
| Raise (e : exn).
Arguments Ok {A} a.
Arguments Raise {A} e.

(** A computation reads and changes the world and returns or raises; what
    it changed before raising stays changed. *)
Definition M (A : Type) : Type := world -> result A * world.

Definition ret {A} (a : A) : M A := fun w => (Ok a, w).

Definition raise {A} (e : exn) : M A := fun w => (Raise e, w).

Definition bind {A B} (c : M A) (k : A -> M B) : M B :=
  fun w =>
    match c w with
    | (Ok a, w') => k a w'
    | (Raise e, w') => (Raise e, w')
    end.

Notation "'let*' x ':=' c 'in' k" := (bind c (fun x => k))
  (at level 10, x name, c at level 100, k at level 200).

Definition returned {A} (r : result A * world) : result A := fst r.
Definition after {A} (r : result A * world) : world := snd r.

(** The values [jsonify] is given. *)
#[local] Set Warnings "-register-all".
Inductive json :=
| JString (s : Py.str)
| JInt (n : Z)
| JList (l : list json)
| JDict (items : list (Py.str * json)).

Record response := {
  status_code : Z;
  body : json
}.

(** [jsonify(d)], and [jsonify(d), code]. *)
Definition jsonify (items : list (Py.str * json)) : response :=
  {| status_code := 200; body := JDict items |}.

Definition with_status (r : response) (code : Z) : response :=
  {| status_code := code; body := body r |}.

(** The routes of the application and what a request carries: the
    X-API-KEY header if there is one, and [request.json].  The requests of
    this type are those whose body is a JSON object with string values
    ([Some]) or the JSON value [null] ([None]); a body of another shape, or
    one that is not JSON, is not a value of the type. *)
Inductive endpoint :=
| memory_add
| memory_search (keyword : Py.str)
| logs_retrieve
| get_api_key_route.

Record request := {
  target : endpoint;
  x_api_key : option Py.str;
  json_body : option (gmap Py.str Py.str)
}.

Section Service.

(** [clock n] is what [datetime.datetime.now().isoformat()] returns the
    [n]-th time the clock is read. *)
Variable clock : nat -> Py.str.

(** [c.upper()] for a character outside ASCII. *)
Variable unicode_upper : N -> Py.str.

(** [API_SECRET = secrets.token_hex(16)], drawn once when the module is
    loaded. *)
Variable API_SECRET : Py.str.

Definition PERIODIC_TASK_INTERVAL : Z := 300.

(** ** 2) Database setup *)

(** [init_db]: CREATE TABLE IF NOT EXISTS.  The argument is the table found
    in the database file, if any. *)
Definition init_db (found : option Sqlite.table) : Sqlite.table :=
  match found with
  | Some t => t
  | None => Sqlite.empty_table
  end.

(** ** 3) Logging system *)

Definition datetime_now_isoformat : M Py.str :=
  fun w => (Ok (clock (ticks w)),
            {| ticks := S (ticks w); LOG_FILE := LOG_FILE w; MEMORY_DB := MEMORY_DB w |}).

(** The text of the log file, empty when the file does not exist yet. *)
Definition log_text (w : world) : Py.str := default [] (LOG_FILE w).

(** [with open(LOG_FILE, "a") as f: f.write(text)]: mode "a" creates the
    file when it is missing and writes at its end. *)
Definition append_log (text : Py.str) : M unit :=
  fun w => (Ok tt,
            {| ticks := ticks w; LOG_FILE := Some (log_text w ++ text);
               MEMORY_DB := MEMORY_DB w |}).

(** The dict [log_entry] built by [log_event]. *)
Definition log_entry (now level message : Py.str) : list (Py.str * Py.str) :=
  [ (Py.lit "timestamp", now);
    (Py.lit "level", Py.upper unicode_upper level);
    (Py.lit "message", message) ].

Definition log_event (message level : Py.str) : M unit :=
  let* now := datetime_now_isoformat in
  append_log (Json.dumps (log_entry now level message) ++ [10]).

(** ** 4) Memory system *)

(** [cursor.execute("INSERT ...", params); conn.commit()] under
    [memory_lock]. *)
Definition execute_insert (ts category content : Py.str) : M unit :=
  fun w =>
    match Sqlite.insert ts category content (MEMORY_DB w) with
    | inr t => (Ok tt, {| ticks := ticks w; LOG_FILE := LOG_FILE w; MEMORY_DB := t |})
    | inl e => raise (sqlite_exception e) w
    end.

Definition add_memory_entry (category content : Py.str) : M unit :=
  let* now := datetime_now_isoformat in
  let* _ := execute_insert now category content in
  log_event (Py.lit "Memory entry added under '" ++ category ++ Py.lit "'")
            (Py.lit "SUCCESS").

Definition api_add_memory (req : request) : M response :=
  let payload := default ∅ (json_body req) in
  let category := default (Py.lit "General") (payload !! Py.lit "category") in
  let content := default [] (payload !! Py.lit "content") in
  if negb (Py.truthy (Py.strip content)) then
    ret (with_status
           (jsonify [ (Py.lit "status", JString (Py.lit "Error"));
                      (Py.lit "message", JString (Py.lit "Content cannot be empty")) ])
           400)
  else
    let* _ := add_memory_entry category content in
    ret (jsonify [ (Py.lit "status", JString (Py.lit "Success"));
                   (Py.lit "message", JString (Py.lit "Memory entry added.")) ]).

(** One row of the result as the dict the handler builds from it. *)
Definition match_dict (r : Sqlite.row) : json :=
  JDict [ (Py.lit "timestamp", JString (Sqlite.timestamp r));
          (Py.lit "category", JString (Sqlite.category r));
          (Py.lit "content", JString (Sqlite.content r)) ].

(** [cursor.execute("SELECT ...", ('%' + keyword + '%',))] under
    [memory_lock], and [cursor.fetchall()]. *)
Definition execute_select (pattern : Py.str) : M (list Sqlite.row) :=
  fun w =>
    match Sqlite.select_like pattern (MEMORY_DB w) with
    | inr rows => (Ok rows, w)
    | inl e => raise (sqlite_exception e) w
    end.

Definition api_memory_search (keyword : Py.str) : M response :=
  let* rows := execute_select (37 :: keyword ++ [37]) in
  let results := map match_dict rows in
  ret (jsonify [ (Py.lit "matches", JList results);
                 (Py.lit "count", JInt (Z.of_nat (length results))) ]).

(** ** 5) Log retrieval *)

Definition retrieve_logs : M response :=
  fun w =>
    match LOG_FILE w with
    | None =>
        (Ok (with_status
               (jsonify [ (Py.lit "error", JString (Py.lit "Log file not found.")) ])
               404),
         w)
    | Some text =>
        let logs := Py.last_n 100 (Py.readlines text) in
        (Ok (jsonify [ (Py.lit "logs", JList (map JString logs));
                       (Py.lit "count", JInt (Z.of_nat (length logs))) ]),
         w)
    end.

(** ** 6) Authentication *)

Definition unauthorized : response :=
  with_status (jsonify [ (Py.lit "error", JString (Py.lit "Unauthorized")) ]) 401.

(** The [before_request] hook: [None] lets the request through, a response
    answers it at once. *)
Definition authenticate (req : request) : option response :=
  if decide (x_api_key req = Some API_SECRET) then None else Some unauthorized.

Definition get_api_key : M response :=
  ret (jsonify [ (Py.lit "api_key", JString API_SECRET) ]).

(** ** Flask's dispatch *)

(** [Flask.full_dispatch_request]: the [before_request] hook runs first and
    the view function is called only if the hook returned [None]. *)
Definition full_dispatch_request
    (before_request : request -> option response)
    (view : request -> M response) (req : request) : M response :=
  match before_request req with
  | Some rv => ret rv
  | None => view req
  end.

(** The view functions registered with [@app.route]. *)
Definition view_functions (req : request) : M response :=
  match target req with
  | memory_add => api_add_memory req
  | memory_search keyword => api_memory_search keyword
  | logs_retrieve => retrieve_logs
  | get_api_key_route => get_api_key
  end.

(** The application: [authenticate] is its only [before_request] hook. *)
Definition handle (req : request) : M response :=
  full_dispatch_request authenticate view_functions req.

(** ** 7) Self-maintenance *)

(** [background_maintenance] makes two kinds of calls; whether a call
    returns or raises is up to the environment. *)
Inductive call :=
| call_log_event (message level : Py.str)
| call_sleep (seconds : Z).

(** [Raises e] carries [str(e)] of an exception that [except Exception]
    catches. *)
Inductive outcome :=
| Returns
| Raises (e : Py.str).

(** Where the loop stands: before each of the two calls of the [try]
    block, before each of the two calls of the handler, or ended by an
    exception that left the handler. *)
Inductive loop_state :=
| try_log
| try_sleep
| except_log (e : Py.str)
| except_sleep
| thread_ended (e : Py.str).

Definition heartbeat_message : Py.str := Py.lit "Self-check: AI-OS running smoothly".

Definition error_message (e : Py.str) : Py.str :=
  Py.lit "Background maintenance error: " ++ e.

(** The call the loop makes next. *)
Definition pending (s : loop_state) : option call :=
  match s with
  | try_log => Some (call_log_event heartbeat_message (Py.lit "INFO"))
  | try_sleep => Some (call_sleep PERIODIC_TASK_INTERVAL)
  | except_log e => Some (call_log_event (error_message e) (Py.lit "ERROR"))
  | except_sleep => Some (call_sleep PERIODIC_TASK_INTERVAL)
  | thread_ended _ => None
  end.

(** Where the loop goes once the pending call has returned or raised.  The
    end of the [try] block and the end of the handler both lead back to the
    top of [while True]. *)
Definition resume (s : loop_state) (o : outcome) : loop_state :=
  match s, o with
  | try_log, Returns => try_sleep
  | try_log, Raises e => except_log e
  | try_sleep, Returns => try_log
  | try_sleep, Raises e => except_log e
  | except_log _, Returns => except_sleep
  | except_log _, Raises e' => thread_ended e'
  | except_sleep, Returns => try_log
  | except_sleep, Raises e' => thread_ended e'
  | thread_ended e, _ => thread_ended e
  end.

(** The calls made while the environment answers with [os], and the state
    reached. *)
Fixpoint run_loop (s : loop_state) (os : list outcome) : list call * loop_state :=
  match os with
  | [] => ([], s)
  | o :: os' =>
      match pending s with
      | None => ([], s)
      | Some c => let (cs, s') := run_loop (resume s o) os' in (c :: cs, s')
      end
  end.

(** The thread's function: the loop entered at the top of [while True]. *)
Definition background_maintenance (os : list outcome) : list call * loop_state :=
  run_loop try_log os.

(** No call made from the handler raises, along the run from [s] on [os]. *)
Fixpoint handler_returns (s : loop_state) (os : list outcome) : bool :=
  match os with
  | [] => true
  | o :: os' =>
      match s, o with
      | except_log _, Raises _ => false
      | except_sleep, Raises _ => false
      | _, _ => handler_returns (resume s o) os'
      end
  end.

(** What a call that returned has done to the world. *)
Definition effect (c : call) : M unit :=
  match c with
  | call_log_event message level => log_event message level
  | call_sleep _ => ret tt
  end.

(** ** The states the service can be in *)

(** The service starts on a database file it has just created, and from
    then on the world changes by handling a request, by writing a log
    line, or by a restart of the process, which runs [init_db] on the file
    it finds. *)
Inductive reachable : world -> Prop :=
| reachable_start (n : nat) (log : option Py.str) :
    reachable {| ticks := n; LOG_FILE := log; MEMORY_DB := init_db None |}
| reachable_restart (w : world) :
    reachable w ->
    reachable {| ticks := ticks w; LOG_FILE := LOG_FILE w;
                 MEMORY_DB := init_db (Some (MEMORY_DB w)) |}
| reachable_handle (req : request) (w : world) :
    reachable w -> reachable (after (handle req w))
| reachable_log_event (message level : Py.str) (w : world) :
    reachable w -> reachable (after (log_event message level w)).

(** The fields of the request body as [api_add_memory] reads them. *)
Definition category_of (req : request) : Py.str :=
  default (Py.lit "General") (default ∅ (json_body req) !! Py.lit "category").

Definition content_of (req : request) : Py.str :=
  default [] (default ∅ (json_body req) !! Py.lit "content").

(* ================================================================== *)
(** * Properties *)
(* ================================================================== *)

(** ** Event log *)

Lemma log_event_run (message level : Py.str) (w : world) :
  log_event message level w =
    (Ok tt,
     {| ticks := S (ticks w);
        LOG_FILE := Some (log_text w
                            ++ Json.dumps (log_entry (clock (ticks w)) level message)
                            ++ [10]);
        MEMORY_DB := MEMORY_DB w |}).
Proof. reflexivity. Qed.

Lemma printable_no_newline (line : Py.str) :
  Forall Json.printable line -> Forall Py.no_newline line.
Proof.
  intros H. eapply Forall_impl; [exact H|].
  intros c [Hlo Hhi]. unfold Py.no_newline. lia.
Qed.

(** C6: a call of [log_event] returns, leaves the table alone, and adds to
    the end of the log file one line and its LF.  The line is printable
    ASCII, so no line break occurs inside it; it is a JSON object whose
    members are, in this order, timestamp, level and message, with the
    clock reading, the upper-cased level and the message as their values;
    and on a log made of whole lines [readlines] returns the old lines
    followed by the new one. *)
Theorem log_event_appends_one_json_line (message level : Py.str) (w : world) :
  exists line : Py.str,
    log_event message level w
      = (Ok tt,
         {| ticks := S (ticks w);
            LOG_FILE := Some (log_text w ++ line ++ [10]);
            MEMORY_DB := MEMORY_DB w |})
    /\ Forall Json.printable line
    /\ Json.loads line
         = Some [ (Py.lit "timestamp", Json.utf16 (clock (ticks w)));
                  (Py.lit "level", Json.utf16 (Py.upper unicode_upper level));
                  (Py.lit "message", Json.utf16 message) ]
    /\ (Py.whole_lines (log_text w) ->
        Py.readlines (log_text w ++ line ++ [10])
          = Py.readlines (log_text w) ++ [line ++ [10]]).
Proof.
  exists (Json.dumps (log_entry (clock (ticks w)) level message)).
  split; [apply log_event_run|].
  split; [apply Json.dumps_printable|].
  split; [rewrite Json.loads_dumps; reflexivity|].
  intros Hw. apply Py.readlines_append_line; [exact Hw|].
  apply printable_no_newline, Json.dumps_printable.
Qed.

(** ** Log retrieval *)

(** C4: [retrieve_logs] changes nothing and always returns a response.
    That response has status 404 exactly when the log file does not
    exist.  When the file exists the status is 200 and [logs] is the end
    of what [readlines] returns, in the file's order, cut to at most 100
    lines; [count] is its length. *)
Theorem retrieve_logs_last_100 (w : world) :
  exists resp : response,
    retrieve_logs w = (Ok resp, w)
    /\ (status_code resp = 404%Z <-> LOG_FILE w = None)
    /\ (forall text : Py.str,
          LOG_FILE w = Some text ->
          exists older logs : list Py.str,
            Py.readlines text = older ++ logs
            /\ (length logs <= 100)%nat
            /\ length logs = Nat.min 100 (length (Py.readlines text))
            /\ resp = jsonify [ (Py.lit "logs", JList (map JString logs));
                                (Py.lit "count", JInt (Z.of_nat (length logs))) ]).
Proof.
  unfold retrieve_logs. destruct (LOG_FILE w) as [text|] eqn:E.
  - eexists. split; [reflexivity|]. split.
    + simpl. split; intros H; discriminate H.
    + intros text' [= <-].
      destruct (Py.last_n_suffix 100 (Py.readlines text)) as [older Ho].
      exists older, (Py.last_n 100 (Py.readlines text)).
      split; [exact Ho|].
      rewrite Py.last_n_length. repeat split; lia.
  - eexists. split; [reflexivity|]. split.
    + simpl. split; reflexivity.
    + intros text H. discriminate H.
Qed.

(** ** Authentication gate *)

Lemma authenticate_rejects (req : request) :
  x_api_key req <> Some API_SECRET -> authenticate req = Some unauthorized.
Proof. intros H. unfold authenticate. destruct (decide _); [contradiction | reflexivity]. Qed.

Lemma authenticate_accepts (req : request) :
  x_api_key req = Some API_SECRET -> authenticate req = None.
Proof. intros H. unfold authenticate. destruct (decide _); [reflexivity | contradiction]. Qed.

(** C2: whatever view function is registered for the route of a request,
    a request whose X-API-KEY header is missing or is not the secret is
    answered with the 401 response and the view is not run: the result does
    not depend on it.  A request that carries the secret gets what the view
    returns.  This holds for the application's own routes, the one that
    hands out the key among them. *)
Theorem authenticate_gates_every_route
    (view : request -> M response) (req : request) (w : world) :
  status_code unauthorized = 401%Z
  /\ (x_api_key req <> Some API_SECRET ->
      full_dispatch_request authenticate view req w = (Ok unauthorized, w)
      /\ handle req w = (Ok unauthorized, w))
  /\ (x_api_key req = Some API_SECRET ->
      full_dispatch_request authenticate view req w = view req w
      /\ handle req w = view_functions req w).
Proof.
  split; [reflexivity|]. unfold handle, full_dispatch_request. split; intros H.
  - rewrite (authenticate_rejects req H). split; reflexivity.
  - rewrite (authenticate_accepts req H). split; reflexivity.
Qed.

(** C8: a request that the gate rejects leaves the world as it was: the
    log file has no new line and the table no new row. *)
Theorem rejected_request_changes_nothing (req : request) (w : world) :
  x_api_key req <> Some API_SECRET ->
  after (handle req w) = w
  /\ LOG_FILE (after (handle req w)) = LOG_FILE w
  /\ MEMORY_DB (after (handle req w)) = MEMORY_DB w.
Proof.
  intros H. unfold handle, full_dispatch_request.
  rewrite (authenticate_rejects req H). repeat split.
Qed.

(** ** Adding an entry *)

Definition content_cannot_be_empty : response :=
  {| status_code := 400;
     body := JDict [ (Py.lit "status", JString (Py.lit "Error"));
                     (Py.lit "message", JString (Py.lit "Content cannot be empty")) ] |}.

(** C3: when the content of an add request is empty or made of whitespace
    only, [api_add_memory] answers 400 with status "Error" and message
    "Content cannot be empty", and the world is unchanged: no row is
    inserted.  An authenticated request to the add route gets the same. *)
Theorem blank_content_is_rejected (req : request) (w : world) :
  forallb Py.isspace (content_of req) = true ->
  api_add_memory req w = (Ok content_cannot_be_empty, w)
  /\ (target req = memory_add -> x_api_key req = Some API_SECRET ->
      handle req w = (Ok content_cannot_be_empty, w)).
Proof.
  intros H.
  assert (E : api_add_memory req w = (Ok content_cannot_be_empty, w)).
  { unfold api_add_memory. fold (content_of req).
    apply Py.strip_nil_iff in H. rewrite H. reflexivity. }
  split; [exact E|]. intros Ht Hk.
  unfold handle, full_dispatch_request, view_functions.
  rewrite (authenticate_accepts req Hk), Ht. exact E.
Qed.

Definition memory_entry_added : response :=
  {| status_code := 200;
     body := JDict [ (Py.lit "status", JString (Py.lit "Success"));
                     (Py.lit "message", JString (Py.lit "Memory entry added.")) ] |}.

(** The line [add_memory_entry] logs after the insert. *)
Definition added_line (now category : Py.str) : Py.str :=
  Json.dumps (log_entry now (Py.lit "SUCCESS")
                (Py.lit "Memory entry added under '" ++ category ++ Py.lit "'"))
  ++ [10].

Lemma add_memory_entry_run (category content : Py.str) (w : world) (t' : Sqlite.table) :
  Sqlite.insert (clock (ticks w)) category content (MEMORY_DB w) = inr t' ->
  add_memory_entry category content w =
    (Ok tt,
     {| ticks := S (S (ticks w));
        LOG_FILE := Some (log_text w ++ added_line (clock (S (ticks w))) category);
        MEMORY_DB :=
          {| Sqlite.rows :=
               Sqlite.rows (MEMORY_DB w)
                 ++ [Sqlite.new_row (clock (ticks w)) category content (MEMORY_DB w)];
             Sqlite.sqlite_sequence := (Sqlite.last_rowid (MEMORY_DB w) + 1)%Z |} |}).
Proof.
  intros H. unfold add_memory_entry, bind, datetime_now_isoformat, execute_insert.
  cbn [ticks LOG_FILE MEMORY_DB]. rewrite H.
  apply Sqlite.insert_inr in H as [_ [_ [_ [_ [_ ->]]]]]. reflexivity.
Qed.

Lemma add_memory_entry_fails (category content : Py.str) (w : world) (e : Sqlite.error) :
  Sqlite.insert (clock (ticks w)) category content (MEMORY_DB w) = inl e ->
  add_memory_entry category content w =
    (Raise (sqlite_exception e),
     {| ticks := S (ticks w); LOG_FILE := LOG_FILE w; MEMORY_DB := MEMORY_DB w |}).
Proof.
  intros H. unfold add_memory_entry, bind, datetime_now_isoformat, execute_insert.
  cbn [ticks LOG_FILE MEMORY_DB]. rewrite H. reflexivity.
Qed.

(** An add returns exactly when its INSERT succeeds. *)
Lemma add_memory_entry_returns (category content : Py.str) (w : world) :
  returned (add_memory_entry category content w) = Ok tt ->
  exists t', Sqlite.insert (clock (ticks w)) category content (MEMORY_DB w) = inr t'.
Proof.
  intros H.
  destruct (Sqlite.insert (clock (ticks w)) category content (MEMORY_DB w))
    as [e|t'] eqn:E; [|exists t'; reflexivity].
  rewrite (add_memory_entry_fails _ _ _ _ E) in H. discriminate H.
Qed.

(** What the add route does with a content that is not blank: the answer
    of the INSERT decides. *)
Lemma api_add_memory_accepted (req : request) (w : world) :
  Py.strip (content_of req) <> [] ->
  api_add_memory req w =
    match add_memory_entry (category_of req) (content_of req) w with
    | (Ok _, w') => (Ok memory_entry_added, w')
    | (Raise e, w') => (Raise e, w')
    end.
Proof.
  intros Hc. unfold api_add_memory. fold (content_of req). fold (category_of req).
  destruct (Py.strip (content_of req)) as [|c s]; [contradiction|].
  cbn [Py.truthy negb]. unfold bind.
  destruct (add_memory_entry (category_of req) (content_of req) w) as [[[]|e] w'];
    reflexivity.
Qed.

(** C10, amended: an add request whose content has a character that is
    not whitespace is answered 200 whenever the clock reading, the
    category and the content can be bound, a rowid is left and the record
    is not too long; and whenever it is answered at all, the answer is
    that 200 response and the new row, the last of the table, holds the
    content exactly as it was sent, whitespace at its ends included; its
    category is the one sent, or "General". *)
Theorem accepted_content_is_stored_verbatim (req : request) (w : world) :
  Py.strip (content_of req) <> [] ->
  (Sqlite.bind (clock (ticks w)) = None ->
   Sqlite.bind (category_of req) = None ->
   Sqlite.bind (content_of req) = None ->
   (Sqlite.last_rowid (MEMORY_DB w) < Sqlite.MAX_ROWID)%Z ->
   (Sqlite.record_size (clock (ticks w)) (category_of req) (content_of req)
      <= Sqlite.SQLITE_MAX_LENGTH)%Z ->
   returned (api_add_memory req w) = Ok memory_entry_added)
  /\ (forall resp : response,
        returned (api_add_memory req w) = Ok resp ->
        resp = memory_entry_added
        /\ exists stored : Sqlite.row,
             Sqlite.rows (MEMORY_DB (after (api_add_memory req w)))
               = Sqlite.rows (MEMORY_DB w) ++ [stored]
             /\ Sqlite.content stored = content_of req
             /\ Sqlite.category stored = category_of req
             /\ Sqlite.timestamp stored = clock (ticks w)).
Proof.
  intros Hc. rewrite (api_add_memory_accepted req w Hc). split.
  - intros H1 H2 H3 Hid Hsize.
    rewrite (add_memory_entry_run _ _ _ _
               (Sqlite.insert_succeeds _ _ _ _ H1 H2 H3 Hid Hsize)).
    reflexivity.
  - intros resp.
    destruct (Sqlite.insert (clock (ticks w)) (category_of req) (content_of req)
                (MEMORY_DB w)) as [e|t'] eqn:E.
    + rewrite (add_memory_entry_fails _ _ _ _ E). discriminate.
    + rewrite (add_memory_entry_run _ _ _ _ E). intros [= <-].
      split; [reflexivity|]. eexists. split; [reflexivity|]. repeat split.
Qed.

(** ** Searching *)

Lemma api_memory_search_run (keyword : Py.str) (w : world) (rs : list Sqlite.row) :
  Sqlite.select_like (37 :: keyword ++ [37]) (MEMORY_DB w) = inr rs ->
  api_memory_search keyword w =
    (Ok {| status_code := 200;
           body := JDict
             [ (Py.lit "matches", JList (map match_dict rs));
               (Py.lit "count", JInt (Z.of_nat (length (map match_dict rs)))) ] |},
     w).
Proof.
  intros H. unfold api_memory_search, bind, execute_select. rewrite H. reflexivity.
Qed.

Lemma api_memory_search_fails (keyword : Py.str) (w : world) (e : Sqlite.error) :
  Sqlite.select_like (37 :: keyword ++ [37]) (MEMORY_DB w) = inl e ->
  api_memory_search keyword w = (Raise (sqlite_exception e), w).
Proof.
  intros H. unfold api_memory_search, bind, execute_select. rewrite H. reflexivity.
Qed.

Lemma api_memory_search_frame (keyword : Py.str) (w : world) :
  after (api_memory_search keyword w) = w.
Proof.
  destruct (Sqlite.select_like (37 :: keyword ++ [37]) (MEMORY_DB w)) as [e|rs] eqn:E.
  - rewrite (api_memory_search_fails _ _ _ E). reflexivity.
  - rewrite (api_memory_search_run _ _ _ E). reflexivity.
Qed.

(** C1, amended: after [add_memory_entry category content] has returned
    for a content without the character NUL, the table ends with the
    stored entry, which has the clock reading, [category] and [content];
    and for every substring [keyword] of [content] whose pattern
    ['%' + keyword + '%'] is at most 50000 bytes long, the search answers
    200 with a list of matches that holds the dict of that entry, [count]
    being the length of the list. *)
Theorem added_entry_is_found (category content keyword : Py.str) (w : world) :
  content <> [] ->
  Forall (fun c => c <> 0) content ->
  Py.substring keyword content ->
  (Sqlite.utf8_length keyword + 2 <= Sqlite.SQLITE_MAX_LIKE_PATTERN_LENGTH)%Z ->
  returned (add_memory_entry category content w) = Ok tt ->
  exists (stored : Sqlite.row) (results : list json),
    last (Sqlite.rows (MEMORY_DB (after (add_memory_entry category content w))))
      = Some stored
    /\ Sqlite.timestamp stored = clock (ticks w)
    /\ Sqlite.category stored = category
    /\ Sqlite.content stored = content
    /\ api_memory_search keyword (after (add_memory_entry category content w))
       = (Ok (jsonify [ (Py.lit "matches", JList results);
                        (Py.lit "count", JInt (Z.of_nat (length results))) ]),
          after (add_memory_entry category content w))
    /\ In (match_dict stored) results.
Proof.
  intros _ Hnul Hsub Hlen Hret.
  apply add_memory_entry_returns in Hret as [t' Hins].
  rewrite (add_memory_entry_run _ _ _ _ Hins). unfold after; cbn [snd].
  apply Sqlite.insert_inr in Hins as [_ [_ [Hbind _]]].
  assert (Hpat : Sqlite.bind (37 :: keyword ++ [37]) = None).
  { apply (Sqlite.bind_pattern_of_substring keyword content Hsub Hbind).
    unfold Sqlite.SQLITE_MAX_LIKE_PATTERN_LENGTH, Sqlite.SQLITE_MAX_LENGTH in *. lia. }
  eexists. eexists.
  split; [cbn [MEMORY_DB Sqlite.rows]; apply last_snoc|].
  repeat (split; [reflexivity|]).
  split.
  - apply api_memory_search_run, Sqlite.select_like_inr; [exact Hpat|].
    right. rewrite Sqlite.utf8_length_pattern. exact Hlen.
  - apply in_map, list_elem_of_In, list_elem_of_filter. split.
    + apply Sqlite.like_substring_text; assumption.
    + cbn [MEMORY_DB Sqlite.rows]. apply list_elem_of_In, in_or_app. right. left. reflexivity.
Qed.

Definition no_matches : response :=
  {| status_code := 200;
     body := JDict [ (Py.lit "matches", JList []); (Py.lit "count", JInt 0) ] |}.

(** C5, amended: the search changes nothing.  It returns a 200 response
    when the pattern ['%' + keyword + '%'] can be bound, which asks for a
    keyword without lone surrogate, and is at most 50000 bytes long or
    the table is empty.  When moreover the keyword is plain, so that it
    holds none of [%], [_], NUL, U+FFFD, U+FFFE and U+FFFF, and occurs in
    no stored content, ASCII letters compared without regard to case, the
    response has an empty list of matches and count 0. *)
Theorem search_without_match_is_empty (keyword : Py.str) (w : world) :
  after (api_memory_search keyword w) = w
  /\ (Sqlite.bind (37 :: keyword ++ [37]) = None ->
      Sqlite.rows (MEMORY_DB w) = []
      \/ (Sqlite.utf8_length keyword + 2 <= Sqlite.SQLITE_MAX_LIKE_PATTERN_LENGTH)%Z ->
      exists resp : response,
        returned (api_memory_search keyword w) = Ok resp /\ status_code resp = 200%Z)
  /\ (Sqlite.plain keyword ->
      (Sqlite.utf8_length keyword + 2 <= Sqlite.SQLITE_MAX_LIKE_PATTERN_LENGTH)%Z ->
      Forall (fun r => ~ Sqlite.contains_nocase keyword (Sqlite.content r))
             (Sqlite.rows (MEMORY_DB w)) ->
      api_memory_search keyword w = (Ok no_matches, w)).
Proof.
  split; [apply api_memory_search_frame|]. split.
  - intros Hb Hlen. eexists.
    rewrite (api_memory_search_run keyword w _
               (Sqlite.select_like_inr _ _ Hb
                  ltac:(rewrite Sqlite.utf8_length_pattern; exact Hlen))).
    split; reflexivity.
  - intros Hk Hlen Hnone.
    assert (Hb : Sqlite.bind (37 :: keyword ++ [37]) = None).
    { apply Sqlite.bind_None_iff.
      rewrite Sqlite.surrogate_pattern, Sqlite.utf8_length_pattern.
      split; [apply Sqlite.plain_no_surrogate, Hk|].
      unfold Sqlite.SQLITE_MAX_LIKE_PATTERN_LENGTH, Sqlite.SQLITE_MAX_LENGTH in *. lia. }
    rewrite (api_memory_search_run keyword w _
               (Sqlite.select_like_inr _ _ Hb
                  ltac:(right; rewrite Sqlite.utf8_length_pattern; exact Hlen))).
    assert (E : filter (fun r => Sqlite.like (37 :: keyword ++ [37]) (Sqlite.content r) = true)
                  (Sqlite.rows (MEMORY_DB w)) = []).
    { induction Hnone as [|r rs Hr _ IH]; [reflexivity|].
      rewrite filter_cons. destruct (decide _) as [Hm|Hm]; [|exact IH].
      exfalso. apply Hr, Sqlite.contains_nocase_c_string.
      apply (Sqlite.like_plain keyword _ Hk), Hm. }
    rewrite E. reflexivity.
Qed.

(** ** Row ids *)

(** What a request can do to the table: nothing, or one INSERT. *)
Lemma handle_table (req : request) (w : world) :
  MEMORY_DB (after (handle req w)) = MEMORY_DB w
  \/ exists ts category content,
       Sqlite.insert ts category content (MEMORY_DB w)
         = inr (MEMORY_DB (after (handle req w))).
Proof.
  unfold handle, full_dispatch_request.
  destruct (authenticate req); [left; reflexivity|].
  unfold view_functions. destruct (target req); try (left; reflexivity).
  - unfold api_add_memory. fold (content_of req). fold (category_of req).
    destruct (negb (Py.truthy (Py.strip (content_of req)))); [left; reflexivity|].
    unfold bind.
    destruct (Sqlite.insert (clock (ticks w)) (category_of req) (content_of req)
                (MEMORY_DB w)) as [e|t'] eqn:E.
    + left. rewrite (add_memory_entry_fails _ _ _ _ E). reflexivity.
    + right. rewrite (add_memory_entry_run _ _ _ _ E).
      exists (clock (ticks w)), (category_of req), (content_of req).
      rewrite E. apply Sqlite.insert_inr in E as [_ [_ [_ [_ [_ ->]]]]]. reflexivity.
  - rewrite api_memory_search_frame. left. reflexivity.
  - unfold retrieve_logs. destruct (LOG_FILE w); left; reflexivity.
Qed.

Lemma reachable_consistent (w : world) :
  reachable w -> Sqlite.consistent (MEMORY_DB w).
Proof.
  induction 1 as [n log | w _ IH | req w _ IH | message level w _ IH].
  - apply Sqlite.empty_table_consistent.
  - exact IH.
  - destruct (handle_table req w) as [->|[ts [c [b E]]]]; [exact IH|].
    exact (Sqlite.insert_consistent _ _ _ _ _ IH E).
  - exact IH.
Qed.

Lemma StronglySorted_lt_NoDup (l : list Z) : StronglySorted Z.lt l -> NoDup l.
Proof.
  induction 1 as [|a l _ IH Ha]; constructor; [|exact IH].
  intros Hin. rewrite Forall_forall in Ha. specialize (Ha a Hin). lia.
Qed.

(** C9: in every state the service can reach, the ids of the rows grow
    strictly in the order the rows were added, so no two rows share an id,
    and none is above the [sqlite_sequence] entry; an add that returns
    gives its row an id above that entry and above every id in the table,
    and records it as the new entry; and a restart, which runs [init_db]
    on the file, keeps the rows and the entry. *)
Theorem ids_increase_and_are_never_reused
    (category content : Py.str) (w : world) :
  reachable w ->
  StronglySorted Z.lt (map Sqlite.id (Sqlite.rows (MEMORY_DB w)))
  /\ NoDup (map Sqlite.id (Sqlite.rows (MEMORY_DB w)))
  /\ Forall (fun r => (Sqlite.id r <= Sqlite.sqlite_sequence (MEMORY_DB w))%Z)
            (Sqlite.rows (MEMORY_DB w))
  /\ init_db (Some (MEMORY_DB w)) = MEMORY_DB w
  /\ (returned (add_memory_entry category content w) = Ok tt ->
      exists stored : Sqlite.row,
        Sqlite.rows (MEMORY_DB (after (add_memory_entry category content w)))
          = Sqlite.rows (MEMORY_DB w) ++ [stored]
        /\ Forall (fun r => (Sqlite.id r < Sqlite.id stored)%Z)
                  (Sqlite.rows (MEMORY_DB w))
        /\ (Sqlite.sqlite_sequence (MEMORY_DB w) < Sqlite.id stored)%Z
        /\ Sqlite.sqlite_sequence (MEMORY_DB (after (add_memory_entry category content w)))
           = Sqlite.id stored).
Proof.
  intros Hr. destruct (reachable_consistent w Hr) as [Hs Hb].
  split; [exact Hs|]. split; [apply StronglySorted_lt_NoDup, Hs|].
  split; [eapply Forall_impl; [exact Hb|]; simpl; intros; lia|].
  split; [reflexivity|].
  intros Hret. apply add_memory_entry_returns in Hret as [t' Hret].
  rewrite (add_memory_entry_run _ _ _ _ Hret). unfold after; cbn [snd MEMORY_DB Sqlite.rows].
  eexists. split; [reflexivity|].
  destruct (Sqlite.new_row_above (clock (ticks w)) category content (MEMORY_DB w)) as [Ha Hq].
  split; [exact Ha|]. split; [exact Hq | reflexivity].
Qed.

(** ** Heartbeat *)

Lemma run_loop_goes_on (os : list outcome) :
  forall s : loop_state,
    pending s <> None -> handler_returns s os = true ->
    length (fst (run_loop s os)) = length os
    /\ pending (snd (run_loop s os)) <> None.
Proof.
  induction os as [|o os IH]; intros s Hp Hh; [split; [reflexivity | exact Hp]|].
  assert (Hnext : pending (resume s o) <> None /\ handler_returns (resume s o) os = true).
  { destruct s, o; simpl in *; try discriminate; try contradiction; split;
      try discriminate; exact Hh. }
  destruct Hnext as [Hp' Hh']. destruct (IH _ Hp' Hh') as [Hl Hq].
  cbn [run_loop]. destruct (pending s) as [c|]; [|contradiction].
  destruct (run_loop (resume s o) os) as [cs s']. simpl in *. split; [lia | exact Hq].
Qed.

(** C7, amended: each turn of the loop first calls [log_event] with the
    heartbeat message at level INFO, which appends that line to the log,
    and then sleeps 300 seconds.  When either call raises, the handler
    logs "Background maintenance error: ..." at level ERROR, sleeps the
    same 300 seconds, and the loop starts its next turn.  As long as the
    calls made by the handler return, the loop makes a call for every
    answer it gets and has another one pending: it does not end. *)
Theorem heartbeat_logs_then_sleeps :
  PERIODIC_TASK_INTERVAL = 300%Z
  /\ background_maintenance [Returns; Returns]
     = ([ call_log_event heartbeat_message (Py.lit "INFO");
          call_sleep PERIODIC_TASK_INTERVAL ], try_log)
  /\ (forall w : world,
        LOG_FILE (after (effect (call_log_event heartbeat_message (Py.lit "INFO")) w))
          = Some (log_text w
                    ++ Json.dumps (log_entry (clock (ticks w)) (Py.lit "INFO")
                                     heartbeat_message)
                    ++ [10]))
  /\ (forall e : Py.str,
        background_maintenance [Raises e; Returns; Returns]
          = ([ call_log_event heartbeat_message (Py.lit "INFO");
               call_log_event (error_message e) (Py.lit "ERROR");
               call_sleep PERIODIC_TASK_INTERVAL ], try_log))
  /\ (forall e : Py.str,
        background_maintenance [Returns; Raises e; Returns; Returns]
          = ([ call_log_event heartbeat_message (Py.lit "INFO");
               call_sleep PERIODIC_TASK_INTERVAL;
               call_log_event (error_message e) (Py.lit "ERROR");
               call_sleep PERIODIC_TASK_INTERVAL ], try_log))
  /\ (forall os : list outcome,
        handler_returns try_log os = true ->
        length (fst (background_maintenance os)) = length os
        /\ pending (snd (background_maintenance os)) <> None).
Proof.
  split; [reflexivity|]. split; [reflexivity|].
  split; [intros w; reflexivity|].
  split; [intros e; reflexivity|]. split; [intros e; reflexivity|].
  intros os H. unfold background_maintenance. apply run_loop_goes_on; [discriminate | exact H].
Qed.

(* ================================================================== *)
(** * Further properties *)
(* ================================================================== *)

(** ** The life of the service *)

(** What happens to a running service: it handles a request, some part of
    it writes a log line (the heartbeat, the start-up message), or the
    process is started again on the same files. *)
Inductive event :=
| ev_request (req : request)
| ev_log_event (message level : Py.str)
| ev_restart.

Definition step (e : event) (w : world) : world :=
  match e with
  | ev_request req => after (handle req w)
  | ev_log_event message level => after (log_event message level w)
  | ev_restart =>
      {| ticks := ticks w; LOG_FILE := LOG_FILE w;
         MEMORY_DB := init_db (Some (MEMORY_DB w)) |}
  end.

Definition run_events (es : list event) (w : world) : world :=
  fold_left (fun w e => step e w) es w.

(** [if __name__ == "__main__"]: the first thing the process does, once
    the module is loaded, is to log that it starts. *)
Definition startup_message : Py.str := Py.lit "AI-OS Final Evolution starting up...".

Definition main_startup : M unit := log_event startup_message (Py.lit "INFO").

(** The response of the search route for the rows [rs]. *)
Definition search_response (rs : list Sqlite.row) : response :=
  jsonify [ (Py.lit "matches", JList (map match_dict rs));
            (Py.lit "count", JInt (Z.of_nat (length rs))) ].

(** One line of the log: [json.dumps] of an entry and LF. *)
Definition entry_line (e : Py.str * Py.str * Py.str) : Py.str :=
  Json.dumps [ (Py.lit "timestamp", fst (fst e));
               (Py.lit "level", snd (fst e));
               (Py.lit "message", snd e) ]
  ++ [10].

(** What handling a request does to the world: nothing, or a reading of
    the clock followed by a failed INSERT, or a row and a log line. *)
Lemma handle_cases (req : request) (w : world) :
  after (handle req w) = w
  \/ ((exists e, Sqlite.insert (clock (ticks w)) (category_of req) (content_of req)
                   (MEMORY_DB w) = inl e)
      /\ after (handle req w)
         = {| ticks := S (ticks w); LOG_FILE := LOG_FILE w; MEMORY_DB := MEMORY_DB w |})
  \/ ((exists t', Sqlite.insert (clock (ticks w)) (category_of req) (content_of req)
                    (MEMORY_DB w) = inr t')
      /\ target req = memory_add
      /\ x_api_key req = Some API_SECRET
      /\ Py.strip (content_of req) <> []
      /\ after (handle req w)
         = {| ticks := S (S (ticks w));
              LOG_FILE := Some (log_text w
                                  ++ added_line (clock (S (ticks w))) (category_of req));
              MEMORY_DB :=
                {| Sqlite.rows :=
                     Sqlite.rows (MEMORY_DB w)
                       ++ [Sqlite.new_row (clock (ticks w)) (category_of req)
                             (content_of req) (MEMORY_DB w)];
                   Sqlite.sqlite_sequence := (Sqlite.last_rowid (MEMORY_DB w) + 1)%Z |} |}).
Proof.
  unfold handle, full_dispatch_request, authenticate.
  destruct (decide (x_api_key req = Some API_SECRET)) as [Hk|Hk]; [|left; reflexivity].
  unfold view_functions. destruct (target req) eqn:Ht; try (left; reflexivity).
  - destruct (Py.strip (content_of req)) as [|c s] eqn:Es.
    + left. unfold api_add_memory. fold (content_of req). rewrite Es. reflexivity.
    + rewrite api_add_memory_accepted by (rewrite Es; discriminate).
      destruct (Sqlite.insert (clock (ticks w)) (category_of req) (content_of req)
                  (MEMORY_DB w)) as [e|t'] eqn:E.
      * right. left. rewrite (add_memory_entry_fails _ _ _ _ E).
        split; [exists e; reflexivity | reflexivity].
      * right. right. rewrite (add_memory_entry_run _ _ _ _ E).
        split; [exists t'; reflexivity|].
        repeat (split; [first [assumption | reflexivity | discriminate]|]). reflexivity.
  - left. apply api_memory_search_frame.
  - unfold retrieve_logs. destruct (LOG_FILE w); left; reflexivity.
Qed.

Lemma run_events_snoc (es : list event) (e : event) (w : world) :
  run_events (es ++ [e]) w = step e (run_events es w).
Proof. unfold run_events. rewrite fold_left_app. reflexivity. Qed.

(** The worlds of [reachable] are the worlds that events lead to from a
    fresh database file. *)
Lemma reachable_run_events (w : world) :
  reachable w <->
  exists (es : list event) (n : nat) (log : option Py.str),
    w = run_events es {| ticks := n; LOG_FILE := log; MEMORY_DB := init_db None |}.
Proof.
  split.
  - induction 1 as [n log | w _ [es [n [log ->]]] | req w _ [es [n [log ->]]]
                   | message level w _ [es [n [log ->]]]].
    + exists [], n, log. reflexivity.
    + exists (es ++ [ev_restart]), n, log. rewrite run_events_snoc. reflexivity.
    + exists (es ++ [ev_request req]), n, log. rewrite run_events_snoc. reflexivity.
    + exists (es ++ [ev_log_event message level]), n, log.
      rewrite run_events_snoc. reflexivity.
  - intros [es [n [log ->]]]. induction es as [|e es IH] using rev_ind.
    + apply reachable_start.
    + rewrite run_events_snoc. destruct e; cbn [step].
      * apply reachable_handle, IH.
      * apply reachable_log_event, IH.
      * apply reachable_restart, IH.
Qed.

(** ** What the log and the table only ever do: grow *)

(** One event leaves the log file as it is or adds one line to it, and
    leaves the rows as they are or adds one row. *)
Lemma step_grows (e : event) (w : world) :
  (LOG_FILE (step e w) = LOG_FILE w
   \/ exists entry, LOG_FILE (step e w) = Some (log_text w ++ entry_line entry))
  /\ (Sqlite.rows (MEMORY_DB (step e w)) = Sqlite.rows (MEMORY_DB w)
      \/ exists r, Sqlite.rows (MEMORY_DB (step e w)) = Sqlite.rows (MEMORY_DB w) ++ [r]).
Proof.
  destruct e as [req|message level|]; cbn [step].
  - destruct (handle_cases req w) as [->|[[_ ->]|[_ [_ [_ [_ ->]]]]]];
      cbn [LOG_FILE MEMORY_DB Sqlite.rows].
    + split; left; reflexivity.
    + split; left; reflexivity.
    + split; right; [|eexists; reflexivity].
      exists (clock (S (ticks w)), Py.lit "SUCCESS",
              Py.lit "Memory entry added under '" ++ category_of req ++ Py.lit "'").
      reflexivity.
  - rewrite log_event_run. unfold after; cbn [snd LOG_FILE MEMORY_DB].
    split; [right | left; reflexivity].
    exists (clock (ticks w), Py.upper unicode_upper level, message). reflexivity.
  - split; left; reflexivity.
Qed.

Lemma log_text_step (e : event) (w : world) :
  exists suffix, log_text (step e w) = log_text w ++ suffix
                 /\ (suffix = [] \/ exists entry, suffix = entry_line entry).
Proof.
  destruct (step_grows e w) as [[E|[entry E]] _]; unfold log_text at 1; rewrite E.
  - exists []. rewrite app_nil_r. split; [reflexivity | left; reflexivity].
  - exists (entry_line entry). split; [reflexivity | right; eexists; reflexivity].
Qed.

Lemma log_file_only_grows_aux (es : list event) (w : world) :
  LOG_FILE w <> None -> exists text, LOG_FILE (run_events es w) = Some text.
Proof.
  intros Hw. induction es as [|e es [text He]] using rev_ind.
  - destruct (LOG_FILE w) as [text|] eqn:E; [exists text; exact E | contradiction].
  - rewrite run_events_snoc.
    destruct (step_grows e (run_events es w)) as [[E|[entry E]] _]; rewrite E; eauto.
Qed.

(** X1: the log is append-only.  Whatever requests, log calls and restarts
    happen, the log file afterwards starts with the text it had before,
    and a log file that exists is never removed. *)
Theorem log_file_only_grows (es : list event) (w : world) :
  (exists suffix, log_text (run_events es w) = log_text w ++ suffix)
  /\ (LOG_FILE w <> None -> LOG_FILE (run_events es w) <> None).
Proof.
  induction es as [|e es [[suffix Hs] He]] using rev_ind.
  - split; [exists []; rewrite app_nil_r; reflexivity | tauto].
  - rewrite run_events_snoc.
    destruct (log_text_step e (run_events es w)) as [more [Hm _]].
    split.
    + exists (suffix ++ more). rewrite Hm, Hs, app_assoc. reflexivity.
    + intros Hw. specialize (He Hw).
      destruct (step_grows e (run_events es w)) as [[E|[entry E]] _]; rewrite E;
        [exact He | discriminate].
Qed.

(** X2: the table is append-only.  Whatever happens, the rows that were in
    the table are still its first rows afterwards, unchanged and in the
    same order: no row is updated, deleted or moved. *)
Theorem rows_only_grow (es : list event) (w : world) :
  exists added : list Sqlite.row,
    Sqlite.rows (MEMORY_DB (run_events es w)) = Sqlite.rows (MEMORY_DB w) ++ added
    /\ (length added <= length es)%nat.
Proof.
  induction es as [|e es [added [Ha Hl]]] using rev_ind.
  - exists []. rewrite app_nil_r. split; [reflexivity | simpl; lia].
  - rewrite run_events_snoc, length_app. cbn [length].
    destruct (step_grows e (run_events es w)) as [_ [E|[r E]]]; rewrite E, Ha.
    + exists added. split; [reflexivity | lia].
    + exists (added ++ [r]). rewrite app_assoc, length_app. cbn [length].
      split; [reflexivity | lia].
Qed.

(** ** The log the service writes is a file of JSON lines *)

(** A text that consists of lines written by [log_event]. *)
Definition service_log (text : Py.str) : Prop :=
  exists entries, text = concat (map entry_line entries).

Lemma service_log_run (es : list event) (w : world) :
  service_log (log_text w) -> service_log (log_text (run_events es w)).
Proof.
  intros Hw. induction es as [|e es [entries He]] using rev_ind; [exact Hw|].
  rewrite run_events_snoc.
  destruct (log_text_step e (run_events es w)) as [more [-> [->|[entry ->]]]].
  - rewrite app_nil_r. exists entries. exact He.
  - exists (entries ++ [entry]). rewrite He, map_app, concat_app.
    cbn [map concat]. rewrite app_nil_r. reflexivity.
Qed.

Definition entry_json (e : Py.str * Py.str * Py.str) : Py.str :=
  Json.dumps [ (Py.lit "timestamp", fst (fst e));
               (Py.lit "level", snd (fst e));
               (Py.lit "message", snd e) ].

Lemma service_log_lines (entries : list (Py.str * Py.str * Py.str)) :
  Py.readlines (concat (map entry_line entries))
    = map (fun l => l ++ [10]) (map entry_json entries).
Proof.
  replace (map entry_line entries)
    with (map (fun l => l ++ [10]) (map entry_json entries))
    by (rewrite map_map; reflexivity).
  apply Py.readlines_lines.
  apply Forall_forall. intros l Hl. apply list_elem_of_In, in_map_iff in Hl.
  destruct Hl as [e [<- _]]. apply printable_no_newline, Json.dumps_printable.
Qed.

(** X3: on a service whose log file is missing, empty or was written by
    [log_event], every line that [readlines] finds in the log after any
    run of events, and so every line [retrieve_logs] can return, is a JSON
    object followed by LF, with exactly the members timestamp, level and
    message. *)
Theorem log_lines_are_json_objects (es : list event) (w : world) (line : Py.str) :
  service_log (log_text w) ->
  In line (Py.readlines (log_text (run_events es w))) ->
  exists object ts level message : Py.str,
    line = object ++ [10]
    /\ Json.loads object
       = Some [ (Py.lit "timestamp", Json.utf16 ts);
                (Py.lit "level", Json.utf16 level);
                (Py.lit "message", Json.utf16 message) ].
Proof.
  intros Hw Hin. destruct (service_log_run es w Hw) as [entries He].
  rewrite He, service_log_lines, map_map in Hin.
  apply in_map_iff in Hin as [[[ts level] message] [<- _]].
  exists (entry_json (ts, level, message)), ts, level, message.
  split; [reflexivity|].
  unfold entry_json. rewrite Json.loads_dumps. reflexivity.
Qed.

Lemma last_last_n {A} (n : nat) (xs : list A) (x : A) :
  last (Py.last_n (S n) (xs ++ [x])) = Some x.
Proof.
  unfold Py.last_n. rewrite length_app. cbn [length].
  rewrite drop_app_le by lia. apply last_snoc.
Qed.

(** X4: a line written by [log_event] is what [retrieve_logs] returns
    last.  On a log made of whole lines, the response after the call has
    status 200, its list ends with the new line, and its count is one more
    than the number of lines before, up to the limit of 100. *)
Theorem logged_line_is_retrieved_last (message level : Py.str) (w : world) :
  Py.whole_lines (log_text w) ->
  exists (line : Py.str) (logs : list Py.str),
    retrieve_logs (after (log_event message level w))
      = (Ok (jsonify [ (Py.lit "logs", JList (map JString logs));
                       (Py.lit "count", JInt (Z.of_nat (length logs))) ]),
         after (log_event message level w))
    /\ last logs = Some (line ++ [10])
    /\ length logs = Nat.min 100 (S (length (Py.readlines (log_text w))))
    /\ Json.loads line
       = Some [ (Py.lit "timestamp", Json.utf16 (clock (ticks w)));
                (Py.lit "level", Json.utf16 (Py.upper unicode_upper level));
                (Py.lit "message", Json.utf16 message) ].
Proof.
  intros Hw. rewrite log_event_run. unfold after; cbn [snd].
  exists (Json.dumps (log_entry (clock (ticks w)) level message)).
  eexists. unfold retrieve_logs; cbn [LOG_FILE].
  split; [reflexivity|].
  rewrite (Py.readlines_append_line _ _ Hw)
    by apply printable_no_newline, Json.dumps_printable.
  split; [apply last_last_n|].
  split; [rewrite Py.last_n_length, length_app; cbn [length]; lia|].
  rewrite Json.loads_dumps. reflexivity.
Qed.

(** X5: once the process has logged that it starts, as [__main__] does
    before it serves, [retrieve_logs] never answers 404: after any run of
    events the response has status 200. *)
Theorem retrieve_logs_after_startup (es : list event) (w0 : world) :
  exists resp : response,
    retrieve_logs (run_events es (after (main_startup w0)))
      = (Ok resp, run_events es (after (main_startup w0)))
    /\ status_code resp = 200%Z.
Proof.
  destruct (log_file_only_grows_aux es (after (main_startup w0))) as [text E];
    [discriminate|].
  unfold retrieve_logs. rewrite E. eexists. split; reflexivity.
Qed.

(** ** Adding an entry: what it writes, and what it does when it fails *)

(** X6: an add that returns has read the clock twice, first for the row
    and then for the log line; it has left the rows of the table as they
    were and put one row after them, whose id is one more than the largest
    id ever used; and it has added to the log one line, a JSON object with
    the later clock reading, level SUCCESS and the message that names the
    category. *)
Theorem add_writes_one_row_and_one_log_line (category content : Py.str) (w : world) :
  returned (add_memory_entry category content w) = Ok tt ->
  exists line : Py.str,
    add_memory_entry category content w
      = (Ok tt,
         {| ticks := S (S (ticks w));
            LOG_FILE := Some (log_text w ++ line ++ [10]);
            MEMORY_DB :=
              {| Sqlite.rows :=
                   Sqlite.rows (MEMORY_DB w)
                     ++ [ {| Sqlite.id := (Sqlite.last_rowid (MEMORY_DB w) + 1)%Z;
                             Sqlite.timestamp := clock (ticks w);
                             Sqlite.category := category;
                             Sqlite.content := content |} ];
                 Sqlite.sqlite_sequence := (Sqlite.last_rowid (MEMORY_DB w) + 1)%Z |} |})
    /\ Forall Json.printable line
    /\ Json.loads line
       = Some [ (Py.lit "timestamp", Json.utf16 (clock (S (ticks w))));
                (Py.lit "level", Py.lit "SUCCESS");
                (Py.lit "message",
                 Json.utf16 (Py.lit "Memory entry added under '" ++ category ++ Py.lit "'")) ].
Proof.
  intros H. apply add_memory_entry_returns in H as [t' H].
  rewrite (add_memory_entry_run _ _ _ _ H).
  eexists. split; [reflexivity|].
  split; [apply Json.dumps_printable|].
  rewrite Json.loads_dumps. reflexivity.
Qed.


(** X8: on a request whose body is null or an object with string values,
    the add route answers 400 exactly for blank content: its result is the
    response "Content cannot be empty" if and only if every character of
    the content is whitespace.  For any other content the INSERT decides:
    the result is the response "Memory entry added." when it succeeds, and
    its exception when it fails. *)
Theorem add_route_answers_400_iff_blank (req : request) (w : world) :
  (returned (api_add_memory req w) = Ok content_cannot_be_empty
   <-> forallb Py.isspace (content_of req) = true)
  /\ (forallb Py.isspace (content_of req) = false ->
      returned (api_add_memory req w)
        = match Sqlite.insert (clock (ticks w)) (category_of req) (content_of req)
                  (MEMORY_DB w) with
          | inr _ => Ok memory_entry_added
          | inl e => Raise (sqlite_exception e)
          end).
Proof.
  pose proof (Py.strip_nil_iff (content_of req)) as Hs.
  destruct (Py.strip (content_of req)) as [|c s] eqn:E.
  - assert (Hb : forallb Py.isspace (content_of req) = true) by (apply Hs; reflexivity).
    rewrite Hb. split; [|discriminate]. split; [reflexivity|]. intros _.
    unfold api_add_memory. fold (content_of req). rewrite E. reflexivity.
  - assert (Hb : forallb Py.isspace (content_of req) = false).
    { destruct (forallb Py.isspace (content_of req)); [|reflexivity].
      destruct Hs as [_ Hs]. discriminate (Hs eq_refl). }
    rewrite api_add_memory_accepted by (rewrite E; discriminate).
    rewrite Hb.
    destruct (Sqlite.insert (clock (ticks w)) (category_of req) (content_of req)
                (MEMORY_DB w)) as [e|t'] eqn:Ei.
    + rewrite (add_memory_entry_fails _ _ _ _ Ei).
      split; [split; discriminate | reflexivity].
    + rewrite (add_memory_entry_run _ _ _ _ Ei).
      split; [split; discriminate | reflexivity].
Qed.

(** X9: what the add route does with a body that lacks a key.  When the
    body is null or an object without the key "content", the request is
    answered 400 and nothing is stored; when the key "category" is
    missing, an accepted entry that is stored is stored under "General"
    and the log line says so. *)
Theorem add_route_defaults (req : request) (w : world) :
  (default ∅ (json_body req) !! Py.lit "content" = None ->
   api_add_memory req w = (Ok content_cannot_be_empty, w))
  /\ (default ∅ (json_body req) !! Py.lit "category" = None ->
      Py.strip (content_of req) <> [] ->
      forall resp : response,
        returned (api_add_memory req w) = Ok resp ->
        exists stored : Sqlite.row,
          Sqlite.rows (MEMORY_DB (after (api_add_memory req w)))
            = Sqlite.rows (MEMORY_DB w) ++ [stored]
          /\ Sqlite.category stored = Py.lit "General"
          /\ LOG_FILE (after (api_add_memory req w))
             = Some (log_text w
                       ++ entry_line (clock (S (ticks w)), Py.lit "SUCCESS",
                                      Py.lit "Memory entry added under 'General'"))).
Proof.
  split.
  - intros H. unfold api_add_memory. rewrite H. reflexivity.
  - intros Hcat Hc resp. rewrite (api_add_memory_accepted req w Hc).
    assert (Eg : category_of req = Py.lit "General")
      by (unfold category_of; rewrite Hcat; reflexivity).
    rewrite Eg.
    destruct (Sqlite.insert (clock (ticks w)) (Py.lit "General") (content_of req)
                (MEMORY_DB w)) as [e|t'] eqn:Ei.
    + rewrite (add_memory_entry_fails _ _ _ _ Ei). discriminate.
    + rewrite (add_memory_entry_run _ _ _ _ Ei). intros _.
      eexists. split; [reflexivity|]. split; reflexivity.
Qed.

(** X10: the three GET routes only read.  A request to the search route,
    the log route or the key route leaves the clock, the log file and the
    table as they were, with or without the key, whether it is answered
    or ends in an exception.  The log route and the key route always
    answer; the search route answers when its pattern can be bound and is
    at most 50000 bytes long or the table is empty. *)
Theorem get_routes_only_read (req : request) (w : world) :
  target req <> memory_add ->
  after (handle req w) = w
  /\ ((forall keyword, target req <> memory_search keyword) ->
      exists resp : response, returned (handle req w) = Ok resp)
  /\ (forall keyword : Py.str,
        target req = memory_search keyword ->
        Sqlite.bind (37 :: keyword ++ [37]) = None ->
        Sqlite.rows (MEMORY_DB w) = []
        \/ (Sqlite.utf8_length keyword + 2 <= Sqlite.SQLITE_MAX_LIKE_PATTERN_LENGTH)%Z ->
        exists resp : response, returned (handle req w) = Ok resp).
Proof.
  intros Ht. unfold handle, full_dispatch_request.
  destruct (authenticate req);
    [split; [reflexivity|]; split; intros; eexists; reflexivity|].
  unfold view_functions. destruct (target req) as [|k| |]; [contradiction| | |].
  - split; [apply api_memory_search_frame|]. split.
    + intros H. destruct (H k eq_refl).
    + intros keyword [= <-] Hb Hlen. eexists.
      rewrite (api_memory_search_run k w _
                 (Sqlite.select_like_inr _ _ Hb
                    ltac:(rewrite Sqlite.utf8_length_pattern; exact Hlen))).
      reflexivity.
  - unfold retrieve_logs. destruct (LOG_FILE w);
      (split; [reflexivity|]; split; [intros _; eexists; reflexivity|]);
      intros keyword H; discriminate H.
  - split; [reflexivity|]. split; [intros _; eexists; reflexivity|].
    intros keyword H. discriminate H.
Qed.

(** ** Searching: which rows, in which order *)

Lemma api_memory_search_rows (keyword : Py.str) (w : world) (rs : list Sqlite.row) :
  Sqlite.select_like (37 :: keyword ++ [37]) (MEMORY_DB w) = inr rs ->
  api_memory_search keyword w = (Ok (search_response rs), w).
Proof.
  intros H. rewrite (api_memory_search_run _ _ _ H). unfold search_response, jsonify.
  rewrite length_map. reflexivity.
Qed.

Lemma api_memory_search_returns (keyword : Py.str) (w : world) (resp : response) :
  returned (api_memory_search keyword w) = Ok resp ->
  Sqlite.bind (37 :: keyword ++ [37]) = None
  /\ Sqlite.select_like (37 :: keyword ++ [37]) (MEMORY_DB w)
     = inr (filter (fun r => Sqlite.like (37 :: keyword ++ [37]) (Sqlite.content r) = true)
              (Sqlite.rows (MEMORY_DB w))).
Proof.
  destruct (Sqlite.select_like (37 :: keyword ++ [37]) (MEMORY_DB w)) as [e|rs] eqn:E.
  - rewrite (api_memory_search_fails _ _ _ E). discriminate.
  - intros _. revert E. unfold Sqlite.select_like.
    destruct (Sqlite.bind (37 :: keyword ++ [37])); [discriminate|].
    destruct (Sqlite.rows (MEMORY_DB w)) as [|r rows]; [intros [= <-]; split; reflexivity|].
    destruct (_ <? _)%Z; [discriminate|]. intros [= <-]. split; reflexivity.
Qed.

Lemma pattern_lower (keyword : Py.str) :
  map Sqlite.ascii_lower (37 :: keyword ++ [37])
    = 37 :: map Sqlite.ascii_lower keyword ++ [37].
Proof. cbn [map]. rewrite map_app. reflexivity. Qed.

(** X11: a search that is answered lists rows of the table, each at most
    as often as it is in the table and in the order of the table, with
    [count] their number; and it misses no row whose content is free of
    NUL and contains the keyword as it is written. *)
Theorem search_returns_matching_rows_in_table_order
    (keyword : Py.str) (w : world) (resp : response) :
  returned (api_memory_search keyword w) = Ok resp ->
  exists rs : list Sqlite.row,
    resp = search_response rs
    /\ sublist rs (Sqlite.rows (MEMORY_DB w))
    /\ forall r : Sqlite.row,
         In r (Sqlite.rows (MEMORY_DB w)) ->
         Forall (fun c => c <> 0) (Sqlite.content r) ->
         Py.substring keyword (Sqlite.content r) ->
         In r rs.
Proof.
  intros H. destruct (api_memory_search_returns _ _ _ H) as [_ E].
  rewrite (api_memory_search_rows _ _ _ E) in H. injection H as <-.
  eexists. split; [reflexivity|]. split; [apply sublist_filter|].
  intros r Hr Hnul Hsub. apply list_elem_of_In, list_elem_of_filter.
  split; [apply Sqlite.like_substring_text; assumption | apply list_elem_of_In, Hr].
Qed.

(** X12: an add does not disturb what a search finds.  For a keyword
    whose pattern can be bound and is at most 50000 bytes long, the
    matches after an add that returned are the matches there were before,
    followed by the new entry when its content LIKE-matches the pattern. *)
Theorem search_after_add (category content keyword : Py.str) (w : world) :
  returned (add_memory_entry category content w) = Ok tt ->
  Sqlite.bind (37 :: keyword ++ [37]) = None ->
  (Sqlite.utf8_length keyword + 2 <= Sqlite.SQLITE_MAX_LIKE_PATTERN_LENGTH)%Z ->
  exists before : list Sqlite.row,
    api_memory_search keyword w = (Ok (search_response before), w)
    /\ api_memory_search keyword (after (add_memory_entry category content w))
       = (Ok (search_response
                (before
                   ++ if Sqlite.like (37 :: keyword ++ [37]) content
                      then [Sqlite.new_row (clock (ticks w)) category content (MEMORY_DB w)]
                      else [])),
          after (add_memory_entry category content w)).
Proof.
  intros Hadd Hb Hlen. apply add_memory_entry_returns in Hadd as [t' Hadd].
  assert (Hl : forall t, Sqlite.rows t = []
                 \/ (Sqlite.utf8_length (37%N :: keyword ++ [37%N])
                      <= Sqlite.SQLITE_MAX_LIKE_PATTERN_LENGTH)%Z)
    by (intros t; right; rewrite Sqlite.utf8_length_pattern; exact Hlen).
  eexists. split; [apply api_memory_search_rows, Sqlite.select_like_inr; auto|].
  rewrite (add_memory_entry_run _ _ _ _ Hadd). unfold after; cbn [snd].
  rewrite (api_memory_search_rows _ _ _ (Sqlite.select_like_inr _ _ Hb (Hl _))).
  cbn [MEMORY_DB Sqlite.rows].
  rewrite filter_app, filter_cons, filter_nil. cbn [Sqlite.new_row Sqlite.content].
  destruct (Sqlite.like (37 :: keyword ++ [37]) content) eqn:El;
    destruct (decide _) as [E|E]; try congruence; reflexivity.
Qed.

(** X13: the search does not look at the case of ASCII letters in the
    keyword: two keywords that differ in that case only get the same
    response. *)
Theorem search_ignores_ascii_case (k1 k2 : Py.str) (w : world) :
  map Sqlite.ascii_lower k1 = map Sqlite.ascii_lower k2 ->
  api_memory_search k1 w = api_memory_search k2 w.
Proof.
  intros H. unfold api_memory_search, bind, execute_select.
  rewrite <- (Sqlite.select_like_lower (37 :: k1 ++ [37])),
          <- (Sqlite.select_like_lower (37 :: k2 ++ [37])), !pattern_lower, H.
  reflexivity.
Qed.

(** X14: the empty keyword, and any keyword made of [%] only, matches
    everything: when its pattern is at most 50000 bytes long, or the table
    is empty, the response lists every row of the table. *)
Theorem search_for_nothing_returns_everything (keyword : Py.str) (w : world) :
  Forall (fun c => c = 37) keyword ->
  Sqlite.rows (MEMORY_DB w) = []
  \/ (Z.of_nat (length keyword) + 2 <= Sqlite.SQLITE_MAX_LIKE_PATTERN_LENGTH)%Z ->
  (Z.of_nat (length keyword) + 2 <= Sqlite.SQLITE_MAX_LENGTH)%Z ->
  api_memory_search keyword w = (Ok (search_response (Sqlite.rows (MEMORY_DB w))), w).
Proof.
  intros H Hlen Hmax.
  assert (Hk : keyword = replicate (length keyword) 37).
  { clear -H. induction H as [|c k -> _ IH]; [reflexivity|].
    cbn [length replicate]. rewrite <- IH. reflexivity. }
  assert (Hu : Sqlite.utf8_length keyword = Z.of_nat (length keyword))
    by (rewrite Hk at 1; apply Sqlite.utf8_length_replicate_ascii; lia).
  assert (Hb : Sqlite.bind (37 :: keyword ++ [37]) = None).
  { apply Sqlite.bind_None_iff.
    rewrite Sqlite.surrogate_pattern, Sqlite.utf8_length_pattern, Hu. split; [|exact Hmax].
    rewrite Hk. apply Sqlite.surrogate_replicate_ascii. lia. }
  rewrite (api_memory_search_rows keyword w _
             (Sqlite.select_like_inr _ _ Hb
                ltac:(rewrite Sqlite.utf8_length_pattern, Hu; exact Hlen))).
  do 3 f_equal. clear Hlen.
  induction (Sqlite.rows (MEMORY_DB w)) as [|r rs IH]; [reflexivity|].
  rewrite filter_cons, IH. destruct (decide _) as [E|E]; [reflexivity|].
  exfalso. apply E. unfold Sqlite.like. rewrite Hk.
  rewrite Sqlite.value_text_only by (unfold Sqlite.read_as_written; lia).
  apply Sqlite.like_only_percent; [|discriminate].
  constructor; [reflexivity|]. apply Forall_app. split; [|repeat constructor].
  apply Forall_replicate. reflexivity.
Qed.

(** X15: for a plain keyword, one that holds none of [%], [_], NUL,
    U+FFFD, U+FFFE, U+FFFF and no lone surrogate, and whose pattern is at
    most 50000 bytes long, the search is a substring search in the content
    up to its first NUL and up to the case of ASCII letters: a row is among
    the matches if and only if it is in the table and that part of its
    content contains the keyword, letters compared without regard to
    case. *)
Theorem search_is_substring_search_up_to_case (keyword : Py.str) (w : world) :
  Sqlite.plain keyword ->
  (Sqlite.utf8_length keyword + 2 <= Sqlite.SQLITE_MAX_LIKE_PATTERN_LENGTH)%Z ->
  exists rs : list Sqlite.row,
    api_memory_search keyword w = (Ok (search_response rs), w)
    /\ forall r : Sqlite.row,
         In r rs <->
         In r (Sqlite.rows (MEMORY_DB w))
         /\ Sqlite.contains_nocase keyword (Sqlite.c_string (Sqlite.content r)).
Proof.
  intros Hk Hlen.
  assert (Hb : Sqlite.bind (37 :: keyword ++ [37]) = None).
  { apply Sqlite.bind_None_iff.
    rewrite Sqlite.surrogate_pattern, Sqlite.utf8_length_pattern.
    split; [apply Sqlite.plain_no_surrogate, Hk|].
    unfold Sqlite.SQLITE_MAX_LIKE_PATTERN_LENGTH, Sqlite.SQLITE_MAX_LENGTH in *. lia. }
  eexists. split.
  - apply api_memory_search_rows, Sqlite.select_like_inr; [exact Hb|].
    right. rewrite Sqlite.utf8_length_pattern. exact Hlen.
  - intros r. rewrite <- !list_elem_of_In, list_elem_of_filter.
    rewrite (Sqlite.like_plain keyword _ Hk). tauto.
Qed.

(** X16: a keyword of [n] underscores, [n + 2] at most 50000, asks for
    length, not for text: the matches are the rows whose content has at
    least [n] characters before its first NUL. *)
Theorem search_for_underscores_selects_by_length (n : nat) (w : world) :
  (Z.of_nat n + 2 <= Sqlite.SQLITE_MAX_LIKE_PATTERN_LENGTH)%Z ->
  exists rs : list Sqlite.row,
    api_memory_search (replicate n 95) w = (Ok (search_response rs), w)
    /\ forall r : Sqlite.row,
         In r rs <->
         In r (Sqlite.rows (MEMORY_DB w))
         /\ (n <= length (Sqlite.c_string (Sqlite.content r)))%nat.
Proof using Type.
  clear clock unicode_upper API_SECRET. intros Hn.
  assert (Hu : Sqlite.utf8_length (replicate n 95) = Z.of_nat n)
    by (apply Sqlite.utf8_length_replicate_ascii; lia).
  assert (Hb : Sqlite.bind (37 :: replicate n 95 ++ [37]) = None).
  { apply Sqlite.bind_None_iff.
    rewrite Sqlite.surrogate_pattern, Sqlite.utf8_length_pattern, Hu.
    split; [apply Sqlite.surrogate_replicate_ascii; lia|].
    unfold Sqlite.SQLITE_MAX_LIKE_PATTERN_LENGTH in Hn.
    unfold Sqlite.SQLITE_MAX_LENGTH. lia. }
  eexists. split.
  - apply api_memory_search_rows, Sqlite.select_like_inr; [exact Hb|].
    right. rewrite Sqlite.utf8_length_pattern, Hu. exact Hn.
  - intros r. rewrite <- !list_elem_of_In, list_elem_of_filter.
    unfold Sqlite.like.
    rewrite Sqlite.value_text_only by (unfold Sqlite.read_as_written; lia).
    rewrite Sqlite.like_underscores, Sqlite.length_value_text. tauto.
Qed.

(** ** Reading a short log *)

(** X17: while the log has at most 100 lines, [retrieve_logs] returns all
    of them, in the order of the file; a log file that exists and is empty
    gives status 200 with an empty list and count 0, not 404. *)
Theorem retrieve_logs_returns_a_short_log_whole (w : world) (text : Py.str) :
  LOG_FILE w = Some text ->
  (length (Py.readlines text) <= 100)%nat ->
  retrieve_logs w
    = (Ok (jsonify [ (Py.lit "logs", JList (map JString (Py.readlines text)));
                     (Py.lit "count", JInt (Z.of_nat (length (Py.readlines text)))) ]),
       w)
  /\ (text = [] ->
      retrieve_logs w
        = (Ok (jsonify [ (Py.lit "logs", JList []); (Py.lit "count", JInt 0) ]), w)).
Proof.
  intros E Hl. unfold retrieve_logs. rewrite E.
  rewrite (Py.last_n_short 100 _ Hl). split; [reflexivity|].
  intros ->. reflexivity.
Qed.

(** ** The key route *)

(** X18: the key route tells a caller only what the caller has sent.  Its
    response has status 200 exactly when the request carries the secret in
    its X-API-KEY header, and then the key in the body is the value of
    that header; every other request gets the 401 response. *)
Theorem key_route_returns_the_key_it_was_sent (req : request) (w : world) :
  target req = get_api_key_route ->
  exists resp : response,
    handle req w = (Ok resp, w)
    /\ (status_code resp = 200%Z <-> x_api_key req = Some API_SECRET)
    /\ (x_api_key req <> Some API_SECRET -> resp = unauthorized)
    /\ (forall key : Py.str,
          x_api_key req = Some key -> status_code resp = 200%Z ->
          resp = jsonify [ (Py.lit "api_key", JString key) ]).
Proof.
  intros Ht. unfold handle, full_dispatch_request, authenticate, view_functions.
  rewrite Ht. destruct (decide (x_api_key req = Some API_SECRET)) as [Hk|Hk].
  - eexists. split; [reflexivity|]. split; [split; [intros _; exact Hk | reflexivity]|].
    split; [contradiction|]. intros key Hkey _. rewrite Hk in Hkey.
    injection Hkey as <-. reflexivity.
  - eexists. split; [reflexivity|]. split; [split; [discriminate | contradiction]|].
    split; [reflexivity|]. intros key _ H. discriminate H.
Qed.

(** ** More on the heartbeat *)

Definition heartbeat_call : call := call_log_event heartbeat_message (Py.lit "INFO").

Lemma pending_heartbeat (s : loop_state) : pending s = Some heartbeat_call -> s = try_log.
Proof. destruct s; cbn [pending]; intros H; try reflexivity; discriminate H. Qed.

Lemma run_loop_first (s : loop_state) (os : list outcome) :
  fst (run_loop s os) !! 0%nat = Some heartbeat_call -> s = try_log.
Proof.
  destruct os as [|o os]; cbn [run_loop]; [discriminate|].
  destruct (pending s) as [c|] eqn:E; [|discriminate].
  destruct (run_loop (resume s o) os). cbn [fst]. intros [= ->].
  apply pending_heartbeat, E.
Qed.

Lemma run_loop_paced (os : list outcome) :
  forall (s : loop_state) (i : nat),
    fst (run_loop s os) !! S i = Some heartbeat_call ->
    fst (run_loop s os) !! i = Some (call_sleep PERIODIC_TASK_INTERVAL).
Proof.
  induction os as [|o os IH]; intros s i; cbn [run_loop]; [discriminate|].
  destruct (pending s) as [c|] eqn:E; [|discriminate].
  pose proof (run_loop_first (resume s o) os) as Hfirst.
  specialize (IH (resume s o)).
  destruct (run_loop (resume s o) os) as [cs s']. cbn [fst] in *.
  destruct i as [|i]; cbn [lookup list_lookup]; [|apply IH].
  intros H. specialize (Hfirst H).
  destruct s, o; cbn [resume] in Hfirst; try discriminate Hfirst;
    cbn [pending] in E; injection E as <-; reflexivity.
Qed.

(** X19: the loop never logs two heartbeats in a row.  In every run,
    whatever raises, a heartbeat call that is not the first call of the
    thread comes right after a sleep of 300 seconds. *)
Theorem heartbeat_always_follows_a_sleep (os : list outcome) (i : nat) :
  fst (background_maintenance os) !! S i = Some heartbeat_call ->
  fst (background_maintenance os) !! i = Some (call_sleep 300).
Proof. apply run_loop_paced. Qed.

Lemma run_loop_ended (e : Py.str) (os : list outcome) :
  run_loop (thread_ended e) os = ([], thread_ended e).
Proof. destruct os; reflexivity. Qed.

(** Running on [os] and then on [os'] is running on both. *)
Lemma run_loop_app (os os' : list outcome) :
  forall s : loop_state,
    run_loop s (os ++ os')
      = (fst (run_loop s os) ++ fst (run_loop (snd (run_loop s os)) os'),
         snd (run_loop (snd (run_loop s os)) os')).
Proof.
  induction os as [|o os IH]; intros s.
  - cbn [app run_loop fst snd]. destruct (run_loop s os'); reflexivity.
  - cbn [app run_loop]. destruct (pending s) as [c|] eqn:E.
    + rewrite IH. destruct (run_loop (resume s o) os) as [cs s']. reflexivity.
    + destruct s; try discriminate E. cbn [fst snd]. rewrite run_loop_ended. reflexivity.
Qed.

Lemma run_loop_ends (os : list outcome) :
  forall s : loop_state,
    handler_returns s os = false ->
    exists e, snd (run_loop s os) = thread_ended e.
Proof.
  induction os as [|o os IH]; intros s H; [discriminate H|].
  destruct s, o; cbn [handler_returns resume] in H; cbn [run_loop pending resume];
    first
    [ discriminate H
    | rewrite run_loop_ended; eexists; reflexivity
    | eexists; reflexivity
    | destruct (IH _ H) as [e' He']; destruct (run_loop _ os) as [cs s2];
      exists e'; exact He' ].
Qed.

(** X20: the thread ends exactly when a call made by the handler raises,
    and then for good: it has ended after the answers [os] if and only if
    one of the handler's calls raised, and once ended it makes no further
    call whatever answers follow. *)
Theorem heartbeat_thread_ends_iff_handler_raises (os : list outcome) :
  (handler_returns try_log os = false
   <-> exists e, snd (background_maintenance os) = thread_ended e)
  /\ (forall (e : Py.str) (os' : list outcome),
        snd (background_maintenance os) = thread_ended e ->
        background_maintenance (os ++ os') = background_maintenance os).
Proof.
  unfold background_maintenance. split; [split|].
  - apply run_loop_ends.
  - intros [e He]. destruct (handler_returns try_log os) eqn:H; [|reflexivity].
    destruct (run_loop_goes_on os try_log ltac:(discriminate) H) as [_ Hp].
    rewrite He in Hp. contradiction.
  - intros e os' He. rewrite run_loop_app, He, run_loop_ended.
    cbn [fst snd]. rewrite app_nil_r, <- He.
    destruct (run_loop try_log os); reflexivity.
Qed.

(** The world after the calls [cs] have returned, one after the other. *)
Definition after_calls (cs : list call) (w : world) : world :=
  fold_left (fun w c => after (effect c w)) cs w.

(** The answers of [n] turns of the loop in which nothing raises. *)
Definition quiet (n : nat) : list outcome := concat (replicate n [Returns; Returns]).

(** X21: [n] turns in which nothing raises are [n] times a heartbeat call
    and a sleep of 300 seconds, and they add [n] lines to the log, one per
    turn, each with level INFO, the heartbeat message and the next
    reading of the clock. *)
Theorem quiet_turns_log_one_line_each (n : nat) (w : world) :
  background_maintenance (quiet n)
    = (concat (replicate n [heartbeat_call; call_sleep 300]), try_log)
  /\ log_text (after_calls (fst (background_maintenance (quiet n))) w)
     = log_text w
       ++ concat (map (fun i => entry_line (clock (ticks w + i), Py.lit "INFO",
                                             heartbeat_message))
                      (seq 0 n)).
Proof.
  unfold background_maintenance.
  assert (Hrun : forall n, run_loop try_log (quiet n)
                   = (concat (replicate n [heartbeat_call; call_sleep 300]), try_log)).
  { clear. induction n as [|n IH]; [reflexivity|].
    unfold quiet in *. cbn [replicate concat app run_loop pending resume].
    rewrite IH. reflexivity. }
  split; [apply Hrun|]. rewrite Hrun. cbn [fst]. clear Hrun.
  revert w. induction n as [|n IH]; intros w.
  - cbn. rewrite app_nil_r. reflexivity.
  - cbn [replicate concat app]. unfold after_calls in *.
    cbn [fold_left effect heartbeat_call].
    rewrite IH, log_event_run. unfold after, ret; cbn [snd ticks].
    unfold log_text at 1; cbn [LOG_FILE default from_option id].
    rewrite <- app_assoc. f_equal.
    cbn [seq map concat]. rewrite Nat.add_0_r.
    change (Json.dumps (log_entry (clock (ticks w)) (Py.lit "INFO") heartbeat_message)
              ++ [10])
      with (entry_line (clock (ticks w), Py.lit "INFO", heartbeat_message)).
    f_equal. rewrite <- seq_shift, map_map. f_equal. apply map_ext. intros i.
    rewrite Nat.add_succ_comm. reflexivity.
Qed.

(** ** Ids on a database the service has made itself *)

(** The ids are 1, 2, ..., one per row, and [sqlite_sequence] holds the
    number of rows. *)
Definition numbered (t : Sqlite.table) : Prop :=
  map Sqlite.id (Sqlite.rows t) = map Z.of_nat (seq 1 (length (Sqlite.rows t)))
  /\ Sqlite.sqlite_sequence t = Z.of_nat (length (Sqlite.rows t)).

Lemma numbered_last_rowid (t : Sqlite.table) :
  numbered t -> Sqlite.last_rowid t = Z.of_nat (length (Sqlite.rows t)).
Proof.
  intros [Hids Hseq]. unfold Sqlite.last_rowid. rewrite Hseq.
  apply Z.max_r, Sqlite.largest_rowid_le; [lia|].
  apply Forall_forall. intros r Hr.
  assert (Hin : In (Sqlite.id r) (map Sqlite.id (Sqlite.rows t)))
    by (apply in_map, list_elem_of_In, Hr).
  rewrite Hids in Hin. apply in_map_iff in Hin as [k [<- Hk]].
  apply in_seq in Hk. lia.
Qed.

Lemma numbered_step (e : event) (w : world) :
  numbered (MEMORY_DB w) -> numbered (MEMORY_DB (step e w)).
Proof.
  intros Hn. destruct e as [req|message level|]; cbn [step]; try exact Hn.
  destruct (handle_cases req w) as [->|[[_ ->]|[_ [_ [_ [_ ->]]]]]]; try exact Hn.
  cbn [MEMORY_DB]. rewrite (numbered_last_rowid _ Hn).
  destruct Hn as [Hids Hseq]. split; cbn [Sqlite.rows Sqlite.sqlite_sequence].
  - rewrite map_app, length_app, Hids. cbn [length map].
    rewrite Nat.add_1_r, seq_S, map_app. cbn [map Sqlite.new_row Sqlite.id].
    rewrite (numbered_last_rowid _ (conj Hids Hseq)). do 2 f_equal. lia.
  - rewrite length_app. cbn [length]. lia.
Qed.

(** X24: on a database file that the service has created, the entries are
    numbered 1, 2, 3, ... in the order they were added, whatever requests,
    log calls and restarts have happened: the [k]-th row of the table has
    id [k], and [sqlite_sequence] is the number of rows. *)
Theorem ids_count_the_entries (es : list event) (n : nat) (log : option Py.str) :
  map Sqlite.id
      (Sqlite.rows (MEMORY_DB (run_events es
         {| ticks := n; LOG_FILE := log; MEMORY_DB := init_db None |})))
    = map Z.of_nat
        (seq 1 (length (Sqlite.rows (MEMORY_DB (run_events es
           {| ticks := n; LOG_FILE := log; MEMORY_DB := init_db None |})))))
  /\ Sqlite.sqlite_sequence
       (MEMORY_DB (run_events es
          {| ticks := n; LOG_FILE := log; MEMORY_DB := init_db None |}))
     = Z.of_nat
         (length (Sqlite.rows (MEMORY_DB (run_events es
            {| ticks := n; LOG_FILE := log; MEMORY_DB := init_db None |})))).
Proof.
  change (numbered (MEMORY_DB (run_events es
            {| ticks := n; LOG_FILE := log; MEMORY_DB := init_db None |}))).
  induction es as [|e es IH] using rev_ind.
  - split; reflexivity.
  - rewrite run_events_snoc. apply numbered_step, IH.
Qed.

End Service.

(** ** The secret and the answers to requests without it *)

(** X22: the answer to a rejected request says nothing about the secret.
    Under two secrets that both differ from what the request carries, the
    application returns the same response and leaves the same world, on
    every route. *)
Theorem rejected_answer_is_the_same_for_every_secret
    (clock : nat -> Py.str) (unicode_upper : N -> Py.str)
    (secret1 secret2 : Py.str) (req : request) (w : world) :
  x_api_key req <> Some secret1 ->
  x_api_key req <> Some secret2 ->
  handle clock unicode_upper secret1 req w = handle clock unicode_upper secret2 req w.
Proof.
  intros H1 H2. unfold handle, full_dispatch_request.
  rewrite (authenticate_rejects secret1 req H1), (authenticate_rejects secret2 req H2).
  reflexivity.
Qed.

(* ================================================================== *)
(** * The database connection of a request *)
(* ================================================================== *)

Module Connection.

(** The connections [sqlite3.connect] has returned are told apart by a
    number.  The process has the set of the connections that are open,
    and the number the next connection gets. *)
Record pool := {
  open : gset nat;
  next_connection : nat
}.

(** [sqlite3.connect(MEMORY_DB)]. *)
Definition connect (p : pool) : nat * pool :=
  (next_connection p,
   {| open := {[next_connection p]} ∪ open p;
      next_connection := S (next_connection p) |}).

(** [get_db]: the attribute [_database] of [flask.g] is the argument
    [database], [None] while it is not set. *)
Definition get_db (database : option nat) (p : pool) : nat * option nat * pool :=
  match database with
  | Some db => (db, database, p)
  | None => let (db, p') := connect p in (db, Some db, p')
  end.

(** [close_connection], the [teardown_appcontext] hook. *)
Definition close_connection (database : option nat) (p : pool) : pool :=
  match database with
  | Some db => {| open := open p ∖ {[db]}; next_connection := next_connection p |}
  | None => p
  end.

(** [n] calls of [get_db] within one application context. *)
Fixpoint get_db_times (n : nat) (database : option nat) (p : pool)
  : list nat * option nat * pool :=
  match n with
  | O => ([], database, p)
  | S n' =>
      let '(db, database', p') := get_db database p in
      let '(dbs, database'', p'') := get_db_times n' database' p' in
      (db :: dbs, database'', p'')
  end.

(** One request: Flask pushes an application context with an empty [g],
    the view calls [get_db] [n] times, and the context is torn down, which
    runs [close_connection], whether the view returned or raised. *)
Definition app_context (n : nat) (p : pool) : list nat * pool :=
  let '(dbs, database, p') := get_db_times n None p in
  (dbs, close_connection database p').

(** Every open connection was returned by an earlier [connect]. *)
Definition consistent (p : pool) : Prop :=
  forall db, db ∈ open p -> (db < next_connection p)%nat.

Lemma get_db_times_set (n : nat) (db : nat) (p : pool) :
  get_db_times n (Some db) p = (replicate n db, Some db, p).
Proof.
  induction n as [|n IH]; [reflexivity|].
  cbn [get_db_times get_db]. rewrite IH. reflexivity.
Qed.

(** X23: a request opens at most one connection and leaves none open.
    However often the view calls [get_db], every call returns the same
    connection, opened by the first call; and after the teardown the
    connections that are open are those that were open before the
    request. *)
Theorem request_opens_one_connection_and_closes_it (n : nat) (p : pool) :
  consistent p ->
  fst (app_context n p) = replicate n (next_connection p)
  /\ open (snd (app_context n p)) = open p
  /\ consistent (snd (app_context n p))
  /\ open (snd (get_db_times n None p)) ⊆ {[next_connection p]} ∪ open p.
Proof.
  intros Hp. unfold app_context. destruct n as [|n].
  - cbn. repeat split; [exact Hp|]. apply union_subseteq_r.
  - cbn [get_db_times get_db connect]. rewrite get_db_times_set.
    cbn [fst snd close_connection open next_connection replicate].
    assert (Hfresh : next_connection p ∉ open p).
    { intros Hin. specialize (Hp _ Hin). lia. }
    assert (Hopen : ({[next_connection p]} ∪ open p) ∖ {[next_connection p]} = open p).
    { apply set_eq. intros db.
      rewrite elem_of_difference, elem_of_union, elem_of_singleton.
      split; [tauto|]. intros Hdb. split; [tauto|]. intros ->. contradiction. }
    split; [reflexivity|]. split; [exact Hopen|]. split.
    + intros db Hdb. cbn [open next_connection] in Hdb |- *. rewrite Hopen in Hdb.
      specialize (Hp db Hdb). lia.
    + reflexivity.
Qed.

End Connection.

(* ================================================================== *)
(** * Concrete runs *)
(* ================================================================== *)

Module Demo.

(** A clock that shows one more second at each reading. *)
Definition clock (n : nat) : Py.str :=
  Py.lit "2025-01-01T00:00:0" ++ [48 + N.of_nat n].

(** A case table that leaves the characters outside ASCII as they are. *)
Definition unicode_upper (c : N) : Py.str := [c].

Definition secret : Py.str := Py.lit "3f9c2a7d4b1e8f60a5d2c7b9e4f10386".

(** The service right after its first start: no log file, an empty table. *)
Definition fresh : world :=
  {| ticks := 0; LOG_FILE := None; MEMORY_DB := init_db None |}.

(** POST /memory/add with {"category": "test", "content": "hello world"}. *)
Definition add_hello : request :=
  {| target := memory_add;
     x_api_key := Some secret;
     json_body := Some (<[Py.lit "category" := Py.lit "test"]>
                          (<[Py.lit "content" := Py.lit "hello world"]> ∅)) |}.

(** POST /memory/add with {"content": "   "}. *)
Definition add_blank : request :=
  {| target := memory_add;
     x_api_key := Some secret;
     json_body := Some (<[Py.lit "content" := Py.lit "   "]> ∅) |}.

(** POST /memory/add with {"content": "  hi  "}. *)
Definition add_padded : request :=
  {| target := memory_add;
     x_api_key := Some secret;
     json_body := Some (<[Py.lit "content" := Py.lit "  hi  "]> ∅) |}.

(** GET /get_api_key with no X-API-KEY header. *)
Definition ask_key : request :=
  {| target := get_api_key_route; x_api_key := None; json_body := None |}.

(** The world after the first request has been handled. *)
Definition one_entry : world := after (handle clock unicode_upper secret add_hello fresh).

Definition hello_row : Sqlite.row :=
  {| Sqlite.id := 1;
     Sqlite.timestamp := Py.lit "2025-01-01T00:00:00";
     Sqlite.category := Py.lit "test";
     Sqlite.content := Py.lit "hello world" |}.

Example one_entry_table :
  MEMORY_DB one_entry = {| Sqlite.rows := [hello_row]; Sqlite.sqlite_sequence := 1 |}.
Proof. vm_compute. reflexivity. Qed.

(** A literal in which a backquote stands for the double quote. *)
Definition quoted (s : string) : Py.str :=
  map (fun c => if c =? 96 then 34 else c) (Py.lit s).

Example one_entry_log :
  LOG_FILE one_entry =
    Some (quoted "{`timestamp`: `2025-01-01T00:00:01`, `level`: `SUCCESS`, `message`: `Memory entry added under 'test'`}"
            ++ [10]).
Proof. vm_compute. reflexivity. Qed.

(** Control characters, quotes and characters outside ASCII are escaped as
    [json.dumps] escapes them. *)
Example dumps_escapes :
  Json.dumps [(Py.lit "k", [34; 10; 233; 128512])]
    = quoted "{`k`: `\`\n\u00e9\ud83d\ude00`}".
Proof. vm_compute. reflexivity. Qed.

Example like_examples :
  Sqlite.like (Py.lit "%hello%") (Py.lit "hello world") = true
  /\ Sqlite.like (Py.lit "%HELLO%") (Py.lit "hello world") = true
  /\ Sqlite.like (Py.lit "%h_llo%") (Py.lit "hello world") = true
  /\ Sqlite.like (Py.lit "%help%") (Py.lit "hello world") = false.
Proof. vm_compute. repeat split. Qed.

Example readlines_example :
  Py.readlines (Py.lit "a" ++ [13; 10] ++ Py.lit "b" ++ [10] ++ Py.lit "c")
    = [Py.lit "a" ++ [10]; Py.lit "b" ++ [10]; Py.lit "c"].
Proof. vm_compute. reflexivity. Qed.

(** *** Instances of the theorems *)

(** Adding "hello world" and searching for "hello" finds the entry. *)
Lemma added_entry_is_found_witness :
  exists (stored : Sqlite.row) (results : list json),
    last (Sqlite.rows (MEMORY_DB
            (after (add_memory_entry clock unicode_upper
                      (Py.lit "test") (Py.lit "hello world") fresh))))
      = Some stored
    /\ Sqlite.timestamp stored = clock 0
    /\ Sqlite.category stored = Py.lit "test"
    /\ Sqlite.content stored = Py.lit "hello world"
    /\ api_memory_search (Py.lit "hello")
         (after (add_memory_entry clock unicode_upper
                   (Py.lit "test") (Py.lit "hello world") fresh))
       = (Ok (jsonify [ (Py.lit "matches", JList results);
                        (Py.lit "count", JInt (Z.of_nat (length results))) ]),
          after (add_memory_entry clock unicode_upper
                   (Py.lit "test") (Py.lit "hello world") fresh))
    /\ In (match_dict stored) results.
Proof.
  apply (added_entry_is_found clock unicode_upper
           (Py.lit "test") (Py.lit "hello world") (Py.lit "hello") fresh).
  - discriminate.
  - repeat constructor; discriminate.
  - exists [], (Py.lit " world"). reflexivity.
  - vm_compute. discriminate.
  - reflexivity.
Defined.

(** A request for the key itself, sent without the header, gets 401; the
    add request, which carries the key, reaches its view. *)
Lemma authenticate_gates_witness :
  handle clock unicode_upper secret ask_key fresh = (Ok unauthorized, fresh)
  /\ handle clock unicode_upper secret add_hello fresh
     = view_functions clock unicode_upper secret add_hello fresh.
Proof.
  destruct (authenticate_gates_every_route clock unicode_upper secret
              (view_functions clock unicode_upper secret) ask_key fresh)
    as [_ [Hno _]].
  destruct (authenticate_gates_every_route clock unicode_upper secret
              (view_functions clock unicode_upper secret) add_hello fresh)
    as [_ [_ Hyes]].
  split.
  - apply Hno. discriminate.
  - apply Hyes. reflexivity.
Defined.

(** The add request with content "   " is answered 400 and adds no row. *)
Lemma blank_content_witness :
  api_add_memory clock unicode_upper add_blank one_entry
    = (Ok content_cannot_be_empty, one_entry)
  /\ handle clock unicode_upper secret add_blank one_entry
     = (Ok content_cannot_be_empty, one_entry).
Proof.
  destruct (blank_content_is_rejected clock unicode_upper secret add_blank one_entry)
    as [Hview Hhandle]; [vm_compute; reflexivity|].
  split; [exact Hview|]. apply Hhandle; reflexivity.
Defined.

(** A log of 101 lines: the first is dropped, 100 are returned. *)
Definition long_log : world :=
  {| ticks := 0;
     LOG_FILE := Some (concat (map (fun n => [48 + N.of_nat n; 10]) (seq 0 101)));
     MEMORY_DB := init_db None |}.

Lemma retrieve_logs_witness :
  exists (older logs : list Py.str),
    Py.readlines (log_text long_log) = older ++ logs
    /\ length older = 1%nat
    /\ length logs = 100%nat
    /\ retrieve_logs long_log
       = (Ok (jsonify [ (Py.lit "logs", JList (map JString logs));
                        (Py.lit "count", JInt 100) ]), long_log).
Proof.
  destruct (retrieve_logs_last_100 long_log) as [resp [Hrun [_ Hsome]]].
  destruct (Hsome (log_text long_log) eq_refl) as [older [logs [Hcut [_ [Hlen Hresp]]]]].
  exists older, logs.
  assert (Hn : length (Py.readlines (log_text long_log)) = 101%nat)
    by (vm_compute; reflexivity).
  assert (Hl : length logs = 100%nat) by (rewrite Hlen, Hn; reflexivity).
  split; [exact Hcut|]. split; [|split; [exact Hl|]].
  - apply (f_equal length) in Hcut. rewrite length_app, Hn, Hl in Hcut. lia.
  - rewrite Hrun, Hresp, Hl. reflexivity.
Defined.

(** "HELLO" and "_" occur in no stored content, and yet the search for
    either returns the entry "hello world": LIKE folds the case of ASCII
    letters and reads [_] as any one character. *)
(** A keyword of 49999 characters and a content of 50000. *)
Definition long_keyword : Py.str := replicate (N.to_nat 49999) 120.
Definition long_content : Py.str := replicate (N.to_nat 50000) 120.

Lemma search_matches_beyond_substrings :
  Forall (fun r => ~ Py.substring (Py.lit "HELLO") (Sqlite.content r))
         (Sqlite.rows (MEMORY_DB one_entry))
  /\ api_memory_search (Py.lit "HELLO") one_entry
     = (Ok (jsonify [ (Py.lit "matches", JList [match_dict hello_row]);
                      (Py.lit "count", JInt 1) ]), one_entry)
  /\ Forall (fun r => ~ Py.substring (Py.lit "_") (Sqlite.content r))
            (Sqlite.rows (MEMORY_DB one_entry))
  /\ api_memory_search (Py.lit "_") one_entry
     = (Ok (jsonify [ (Py.lit "matches", JList [match_dict hello_row]);
                      (Py.lit "count", JInt 1) ]), one_entry)
  /\ Forall (fun r => ~ Py.substring long_keyword (Sqlite.content r))
            (Sqlite.rows (MEMORY_DB one_entry))
  /\ api_memory_search long_keyword one_entry
     = (Raise (OperationalError (Py.lit "LIKE or GLOB pattern too complex")), one_entry).
Proof.
  rewrite one_entry_table. cbn [Sqlite.rows].
  assert (Hno : forall k c, In c k -> ~ In c (Py.lit "hello world") ->
                  ~ Py.substring k (Py.lit "hello world")).
  { intros k c Hc Hn Hs. apply Py.substring_chars in Hs.
    rewrite Forall_forall in Hs. apply Hn, Hs, list_elem_of_In, Hc. }
  split; [|split; [|split; [|split; [|split]]]].
  - repeat constructor. apply (Hno _ 72); [left; reflexivity|].
    vm_compute. intuition discriminate.
  - vm_compute. reflexivity.
  - repeat constructor. apply (Hno _ 95); [left; reflexivity|].
    vm_compute. intuition discriminate.
  - vm_compute. reflexivity.
  - repeat constructor. apply (Hno _ 120); [left; reflexivity|].
    vm_compute. intuition discriminate.
  - vm_compute. reflexivity.
Qed.

(** "help" occurs in no stored content, whatever the case of its letters:
    the search returns no match. *)
Lemma search_without_match_witness :
  api_memory_search (Py.lit "help") one_entry = (Ok no_matches, one_entry).
Proof.
  destruct (search_without_match_is_empty (Py.lit "help") one_entry) as [_ [_ H]].
  apply H.
  - repeat constructor; discriminate.
  - vm_compute. discriminate.
  - rewrite one_entry_table. repeat constructor. intros Hc.
    apply Sqlite.contains_nocase_like in Hc; [|repeat constructor; discriminate].
    vm_compute in Hc. discriminate Hc.
Defined.

(** The first line ever logged. *)
Lemma log_event_witness :
  exists line : Py.str,
    log_event clock unicode_upper (Py.lit "started") (Py.lit "info") fresh
      = (Ok tt, {| ticks := 1; LOG_FILE := Some (line ++ [10]);
                   MEMORY_DB := MEMORY_DB fresh |})
    /\ Json.loads line
       = Some [ (Py.lit "timestamp", Py.lit "2025-01-01T00:00:00");
                (Py.lit "level", Py.lit "INFO");
                (Py.lit "message", Py.lit "started") ]
    /\ Py.readlines (line ++ [10]) = [line ++ [10]].
Proof.
  destruct (log_event_appends_one_json_line clock unicode_upper
              (Py.lit "started") (Py.lit "info") fresh)
    as [line [Hrun [_ [Hloads Hlines]]]].
  exists line. split; [exact Hrun|]. split; [exact Hloads|].
  apply Hlines. left. reflexivity.
Defined.

(** The first turn of the loop logs and then sleeps; a handler whose own
    [log_event] raises ends the thread. *)
Lemma heartbeat_logs_before_it_sleeps :
  background_maintenance [Returns; Returns]
    = ([ call_log_event heartbeat_message (Py.lit "INFO"); call_sleep 300 ], try_log)
  /\ background_maintenance [Returns; Returns]
     <> ([ call_sleep 300; call_log_event heartbeat_message (Py.lit "INFO") ], try_log)
  /\ background_maintenance [Raises (Py.lit "disk full"); Raises (Py.lit "disk full"); Returns]
     = ([ call_log_event heartbeat_message (Py.lit "INFO");
          call_log_event (error_message (Py.lit "disk full")) (Py.lit "ERROR") ],
        thread_ended (Py.lit "disk full"))
  /\ pending (thread_ended (Py.lit "disk full")) = None.
Proof.
  split; [reflexivity|]. split; [discriminate|]. split; reflexivity.
Qed.

(** Five calls with one failure inside the [try] block: the loop has made
    all five and goes on. *)
Lemma heartbeat_witness :
  length (fst (background_maintenance
                 [Returns; Raises (Py.lit "interrupted"); Returns; Returns; Returns]))
    = 5%nat
  /\ pending (snd (background_maintenance
                     [Returns; Raises (Py.lit "interrupted"); Returns; Returns; Returns]))
     <> None.
Proof.
  destruct (heartbeat_logs_then_sleeps clock unicode_upper) as [_ [_ [_ [_ [_ H]]]]].
  apply (H [Returns; Raises (Py.lit "interrupted"); Returns; Returns; Returns]).
  reflexivity.
Defined.

(** The request for the key without the header leaves the world alone. *)
Lemma rejected_request_witness :
  after (handle clock unicode_upper secret ask_key one_entry) = one_entry
  /\ LOG_FILE (after (handle clock unicode_upper secret ask_key one_entry))
     = LOG_FILE one_entry
  /\ MEMORY_DB (after (handle clock unicode_upper secret ask_key one_entry))
     = MEMORY_DB one_entry.
Proof.
  apply (rejected_request_changes_nothing clock unicode_upper secret ask_key one_entry).
  discriminate.
Defined.

Lemma one_entry_reachable : reachable clock unicode_upper secret one_entry.
Proof. apply reachable_handle, (reachable_start clock unicode_upper secret 0 None). Qed.

(** The second entry gets id 2, above the id 1 of the first. *)
Lemma ids_increase_witness :
  exists stored : Sqlite.row,
    Sqlite.rows (MEMORY_DB (after (add_memory_entry clock unicode_upper
                                     (Py.lit "test") (Py.lit "second") one_entry)))
      = Sqlite.rows (MEMORY_DB one_entry) ++ [stored]
    /\ Forall (fun r => (Sqlite.id r < Sqlite.id stored)%Z)
              (Sqlite.rows (MEMORY_DB one_entry))
    /\ (Sqlite.sqlite_sequence (MEMORY_DB one_entry) < Sqlite.id stored)%Z
    /\ Sqlite.sqlite_sequence
         (MEMORY_DB (after (add_memory_entry clock unicode_upper
                              (Py.lit "test") (Py.lit "second") one_entry)))
       = Sqlite.id stored.
Proof.
  destruct (ids_increase_and_are_never_reused clock unicode_upper secret
              (Py.lit "test") (Py.lit "second") one_entry one_entry_reachable)
    as [_ [_ [_ [_ H]]]].
  apply H. vm_compute. reflexivity.
Defined.

(** The content "  hi  " is stored with its blanks. *)
Lemma stored_verbatim_witness :
  returned (api_add_memory clock unicode_upper add_padded fresh) = Ok memory_entry_added
  /\ exists stored : Sqlite.row,
       Sqlite.rows (MEMORY_DB (after (api_add_memory clock unicode_upper add_padded fresh)))
         = Sqlite.rows (MEMORY_DB fresh) ++ [stored]
       /\ Sqlite.content stored = content_of add_padded
       /\ Sqlite.category stored = category_of add_padded
       /\ Sqlite.timestamp stored = clock (ticks fresh).
Proof.
  destruct (accepted_content_is_stored_verbatim clock unicode_upper add_padded fresh)
    as [Hok Hstored]; [vm_compute; discriminate|].
  assert (H : returned (api_add_memory clock unicode_upper add_padded fresh)
              = Ok memory_entry_added).
  { apply Hok; vm_compute; first [reflexivity | discriminate]. }
  split; [exact H|]. exact (proj2 (Hstored _ H)).
Defined.

(** POST /memory/add with {"content": "\ud800"}, a lone surrogate. *)
Definition add_surrogate : request :=
  {| target := memory_add;
     x_api_key := Some secret;
     json_body := Some (<[Py.lit "content" := [55296]]> ∅) |}.

(** A content that is a lone surrogate passes the test for blank content,
    and the INSERT then raises UnicodeEncodeError: nothing is stored. *)
Lemma surrogate_content_is_not_stored :
  Py.strip (content_of add_surrogate) <> []
  /\ api_add_memory clock unicode_upper add_surrogate fresh
     = (Raise UnicodeEncodeError,
        {| ticks := 1; LOG_FILE := None; MEMORY_DB := MEMORY_DB fresh |})
  /\ Sqlite.rows (MEMORY_DB (after (api_add_memory clock unicode_upper add_surrogate fresh)))
     = [].
Proof.
  split; [vm_compute; discriminate|]. split; vm_compute; reflexivity.
Qed.

(** The content "a", NUL, "b" is stored, and the search for "b", a part of
    it, finds nothing: LIKE reads the content up to the NUL.  A content of
    50000 characters is stored, and the search for it raises. *)
Lemma nul_hides_the_entry :
  returned (add_memory_entry clock unicode_upper (Py.lit "test") [97; 0; 98] fresh) = Ok tt
  /\ Py.substring [98] [97; 0; 98]
  /\ api_memory_search [98]
       (after (add_memory_entry clock unicode_upper (Py.lit "test") [97; 0; 98] fresh))
     = (Ok no_matches,
        after (add_memory_entry clock unicode_upper (Py.lit "test") [97; 0; 98] fresh))
  /\ returned (add_memory_entry clock unicode_upper (Py.lit "test")
                 long_content fresh) = Ok tt
  /\ returned (api_memory_search long_content
                 (after (add_memory_entry clock unicode_upper (Py.lit "test")
                           long_content fresh)))
     = Raise (OperationalError (Py.lit "LIKE or GLOB pattern too complex")).
Proof.
  split; [vm_compute; reflexivity|].
  split; [exists [97; 0], []; reflexivity|].
  split; [vm_compute; reflexivity|].
  split; vm_compute; reflexivity.
Qed.

Example padded_content_kept :
  content_of add_padded = Py.lit "  hi  "
  /\ category_of add_padded = Py.lit "General"
  /\ map Sqlite.content
       (Sqlite.rows (MEMORY_DB (after (api_add_memory clock unicode_upper add_padded fresh))))
     = [Py.lit "  hi  "].
Proof. vm_compute. repeat split. Qed.

(** *** Instances of the further properties *)

(** GET /memory/search/hello, sent without the key. *)
Definition search_hello : request :=
  {| target := memory_search (Py.lit "hello"); x_api_key := None; json_body := None |}.


Definition success_line : Py.str :=
  quoted "{`timestamp`: `2025-01-01T00:00:01`, `level`: `SUCCESS`, `message`: `Memory entry added under 'test'`}".

Lemma log_file_only_grows_witness :
  (exists suffix,
      log_text (run_events clock unicode_upper secret
                  [ev_request add_padded; ev_restart] one_entry)
        = log_text one_entry ++ suffix)
  /\ LOG_FILE (run_events clock unicode_upper secret
                 [ev_request add_padded; ev_restart] one_entry) <> None.
Proof.
  destruct (log_file_only_grows clock unicode_upper secret
              [ev_request add_padded; ev_restart] one_entry) as [Hgrow Hkeep].
  split; [exact Hgrow|]. apply Hkeep. rewrite one_entry_log. discriminate.
Defined.

Lemma log_lines_are_json_objects_witness :
  exists object ts level message : Py.str,
    success_line ++ [10] = object ++ [10]
    /\ Json.loads object
       = Some [ (Py.lit "timestamp", Json.utf16 ts);
                (Py.lit "level", Json.utf16 level);
                (Py.lit "message", Json.utf16 message) ].
Proof.
  apply (log_lines_are_json_objects clock unicode_upper secret
           [ev_request add_hello] fresh (success_line ++ [10])).
  - exists []. reflexivity.
  - vm_compute. left. reflexivity.
Defined.

Lemma logged_line_is_retrieved_last_witness :
  exists (line : Py.str) (logs : list Py.str),
    retrieve_logs (after (log_event clock unicode_upper
                            (Py.lit "started") (Py.lit "info") fresh))
      = (Ok (jsonify [ (Py.lit "logs", JList (map JString logs));
                       (Py.lit "count", JInt (Z.of_nat (length logs))) ]),
         after (log_event clock unicode_upper (Py.lit "started") (Py.lit "info") fresh))
    /\ last logs = Some (line ++ [10])
    /\ length logs = Nat.min 100 (S (length (Py.readlines (log_text fresh))))
    /\ Json.loads line
       = Some [ (Py.lit "timestamp", Json.utf16 (clock (ticks fresh)));
                (Py.lit "level", Json.utf16 (Py.upper unicode_upper (Py.lit "info")));
                (Py.lit "message", Json.utf16 (Py.lit "started")) ].
Proof.
  apply (logged_line_is_retrieved_last clock unicode_upper
           (Py.lit "started") (Py.lit "info") fresh).
  left. reflexivity.
Defined.

Lemma add_writes_witness :
  exists line : Py.str,
    LOG_FILE (after (add_memory_entry clock unicode_upper
                       (Py.lit "test") (Py.lit "second") one_entry))
      = Some (log_text one_entry ++ line ++ [10])
    /\ map Sqlite.id
         (Sqlite.rows (MEMORY_DB (after (add_memory_entry clock unicode_upper
                                           (Py.lit "test") (Py.lit "second") one_entry))))
       = [1%Z; 2%Z]
    /\ Json.loads line
       = Some [ (Py.lit "timestamp", Py.lit "2025-01-01T00:00:03");
                (Py.lit "level", Py.lit "SUCCESS");
                (Py.lit "message", Py.lit "Memory entry added under 'test'") ].
Proof.
  destruct (add_writes_one_row_and_one_log_line clock unicode_upper
              (Py.lit "test") (Py.lit "second") one_entry)
    as [line [Hrun [_ Hloads]]]; [vm_compute; reflexivity|].
  exists line. rewrite Hrun. split; [reflexivity|]. split; [vm_compute; reflexivity|].
  exact Hloads.
Defined.


Lemma add_route_400_witness :
  returned (api_add_memory clock unicode_upper add_blank fresh) = Ok content_cannot_be_empty
  /\ returned (api_add_memory clock unicode_upper add_padded fresh) = Ok memory_entry_added
  /\ returned (api_add_memory clock unicode_upper add_surrogate fresh)
     = Raise UnicodeEncodeError.
Proof.
  destruct (add_route_answers_400_iff_blank clock unicode_upper add_blank fresh)
    as [[_ Hblank] _].
  destruct (add_route_answers_400_iff_blank clock unicode_upper add_padded fresh)
    as [_ Hok].
  destruct (add_route_answers_400_iff_blank clock unicode_upper add_surrogate fresh)
    as [_ Hsur].
  split; [|split].
  - apply Hblank. vm_compute. reflexivity.
  - rewrite Hok; vm_compute; reflexivity.
  - rewrite Hsur; vm_compute; reflexivity.
Defined.

Lemma add_route_defaults_witness :
  api_add_memory clock unicode_upper ask_key fresh = (Ok content_cannot_be_empty, fresh)
  /\ exists stored : Sqlite.row,
       Sqlite.rows (MEMORY_DB (after (api_add_memory clock unicode_upper add_padded fresh)))
         = Sqlite.rows (MEMORY_DB fresh) ++ [stored]
       /\ Sqlite.category stored = Py.lit "General"
       /\ LOG_FILE (after (api_add_memory clock unicode_upper add_padded fresh))
          = Some (log_text fresh
                    ++ entry_line (clock (S (ticks fresh)), Py.lit "SUCCESS",
                                   Py.lit "Memory entry added under 'General'")).
Proof.
  destruct (add_route_defaults clock unicode_upper ask_key fresh) as [Hnone _].
  destruct (add_route_defaults clock unicode_upper add_padded fresh) as [_ Hcat].
  split.
  - apply Hnone. reflexivity.
  - apply (Hcat ltac:(vm_compute; reflexivity) ltac:(vm_compute; discriminate)
             memory_entry_added).
    vm_compute. reflexivity.
Defined.

Lemma get_routes_only_read_witness :
  after (handle clock unicode_upper secret search_hello one_entry) = one_entry
  /\ exists resp : response,
       returned (handle clock unicode_upper secret search_hello one_entry) = Ok resp.
Proof.
  destruct (get_routes_only_read clock unicode_upper secret search_hello one_entry)
    as [Hframe [_ Hsearch]]; [discriminate|].
  split; [exact Hframe|].
  apply (Hsearch (Py.lit "hello") eq_refl).
  - vm_compute. reflexivity.
  - right. vm_compute. discriminate.
Defined.

Lemma search_after_add_witness :
  exists before : list Sqlite.row,
    api_memory_search (Py.lit "o") one_entry = (Ok (search_response before), one_entry)
    /\ api_memory_search (Py.lit "o")
         (after (add_memory_entry clock unicode_upper
                   (Py.lit "test") (Py.lit "second") one_entry))
       = (Ok (search_response
                (before
                   ++ if Sqlite.like (37 :: Py.lit "o" ++ [37]) (Py.lit "second")
                      then [Sqlite.new_row (clock (ticks one_entry)) (Py.lit "test")
                              (Py.lit "second") (MEMORY_DB one_entry)]
                      else [])),
          after (add_memory_entry clock unicode_upper
                   (Py.lit "test") (Py.lit "second") one_entry)).
Proof.
  apply (search_after_add clock unicode_upper
           (Py.lit "test") (Py.lit "second") (Py.lit "o") one_entry).
  - vm_compute. reflexivity.
  - vm_compute. reflexivity.
  - vm_compute. discriminate.
Defined.

Lemma search_ignores_case_witness :
  api_memory_search (Py.lit "HeLLo") one_entry = api_memory_search (Py.lit "hello") one_entry.
Proof.
  apply (search_ignores_ascii_case (Py.lit "HeLLo") (Py.lit "hello") one_entry).
  reflexivity.
Defined.

Lemma search_for_nothing_witness :
  api_memory_search [] one_entry
    = (Ok (search_response (Sqlite.rows (MEMORY_DB one_entry))), one_entry).
Proof.
  apply (search_for_nothing_returns_everything [] one_entry).
  - constructor.
  - right. vm_compute. discriminate.
  - vm_compute. discriminate.
Defined.

Lemma search_substring_witness :
  exists rs : list Sqlite.row,
    api_memory_search (Py.lit "WORLD") one_entry = (Ok (search_response rs), one_entry)
    /\ forall r : Sqlite.row,
         In r rs <->
         In r (Sqlite.rows (MEMORY_DB one_entry))
         /\ Sqlite.contains_nocase (Py.lit "WORLD") (Sqlite.c_string (Sqlite.content r)).
Proof.
  apply (search_is_substring_search_up_to_case (Py.lit "WORLD") one_entry).
  - repeat constructor; discriminate.
  - vm_compute. discriminate.
Defined.

Lemma search_in_table_order_witness :
  exists rs : list Sqlite.row,
    search_response [hello_row] = search_response rs
    /\ sublist rs (Sqlite.rows (MEMORY_DB one_entry))
    /\ forall r : Sqlite.row,
         In r (Sqlite.rows (MEMORY_DB one_entry)) ->
         Forall (fun c => c <> 0) (Sqlite.content r) ->
         Py.substring (Py.lit "lo w") (Sqlite.content r) ->
         In r rs.
Proof.
  apply (search_returns_matching_rows_in_table_order (Py.lit "lo w") one_entry).
  vm_compute. reflexivity.
Defined.

Lemma search_for_underscores_witness :
  exists rs : list Sqlite.row,
    api_memory_search (replicate 11 95) one_entry = (Ok (search_response rs), one_entry)
    /\ forall r : Sqlite.row,
         In r rs <->
         In r (Sqlite.rows (MEMORY_DB one_entry))
         /\ (11 <= length (Sqlite.c_string (Sqlite.content r)))%nat.
Proof.
  apply (search_for_underscores_selects_by_length 11 one_entry).
  vm_compute. discriminate.
Defined.

Lemma retrieve_short_log_witness :
  retrieve_logs one_entry
    = (Ok (jsonify [ (Py.lit "logs", JList [JString (success_line ++ [10])]);
                     (Py.lit "count", JInt 1) ]), one_entry).
Proof.
  destruct (retrieve_logs_returns_a_short_log_whole one_entry (success_line ++ [10]))
    as [H _].
  - exact one_entry_log.
  - vm_compute. lia.
  - rewrite H. vm_compute. reflexivity.
Defined.

Lemma key_route_witness :
  exists resp : response,
    handle clock unicode_upper secret ask_key fresh = (Ok resp, fresh)
    /\ resp = unauthorized.
Proof.
  destruct (key_route_returns_the_key_it_was_sent clock unicode_upper secret
              ask_key fresh eq_refl) as [resp [Hrun [_ [Hno _]]]].
  exists resp. split; [exact Hrun|]. apply Hno. discriminate.
Defined.

Lemma heartbeat_follows_sleep_witness :
  fst (background_maintenance
         [Returns; Raises (Py.lit "x"); Returns; Returns; Returns]) !! 3%nat
    = Some (call_sleep 300).
Proof.
  apply (heartbeat_always_follows_a_sleep
           [Returns; Raises (Py.lit "x"); Returns; Returns; Returns] 3).
  reflexivity.
Defined.

Lemma heartbeat_thread_ends_witness :
  background_maintenance ([Raises (Py.lit "x"); Raises (Py.lit "y")] ++ [Returns; Returns])
    = background_maintenance [Raises (Py.lit "x"); Raises (Py.lit "y")].
Proof.
  destruct (heartbeat_thread_ends_iff_handler_raises
              [Raises (Py.lit "x"); Raises (Py.lit "y")]) as [_ H].
  apply (H (Py.lit "y")). reflexivity.
Defined.

Lemma rejected_answer_witness :
  handle clock unicode_upper secret ask_key one_entry
    = handle clock unicode_upper (Py.lit "another secret") ask_key one_entry.
Proof.
  apply rejected_answer_is_the_same_for_every_secret; discriminate.
Defined.

Definition no_connection : Connection.pool :=
  {| Connection.open := ∅; Connection.next_connection := 0 |}.

Lemma request_connection_witness :
  fst (Connection.app_context 2 no_connection) = [0%nat; 0%nat]
  /\ Connection.open (snd (Connection.app_context 2 no_connection)) = ∅.
Proof.
  destruct (Connection.request_opens_one_connection_and_closes_it 2 no_connection)
    as [Hdbs [Hopen _]].
  - intros db Hdb. cbn in Hdb. apply not_elem_of_empty in Hdb. contradiction.
  - split; [exact Hdbs | exact Hopen].
Defined.

End Demo.
